(** * Daily rotating file sink (spdlog, [sinks/daily_file_sink.h])

    A shallow embedding of [daily_filename_calculator] and of the
    [daily_file_sink] class template instantiated with it, and of the
    [strftime] loop of [daily_filename_format_calculator], followed by the
    properties of file naming, rotation and retention.

    Conventions.
    - [filename_t] is [std::string]: a list of 8-bit characters.
    - [size_t] values are integers in [0, 2^64); [npos] is [2^64 - 1] and
      the subtraction and the multiplication on sizes wrap around.
    - [log_clock::time_point] is a signed 64-bit tick count. What
      [next_rotation_tp_] computes, the product of [from_time_t] and the
      sum with [hours(24)], wraps around as the 64-bit arithmetic of the
      program does. The clock and the records give their times as
      integers, and the properties that depend on their range state it.
      The difference that [cutoff_tp_] takes is written without
      wrap-around: it stays in the range for the times since 1970.
    - Member functions run in a state-and-exception monad over the object
      and the world it acts on (files, wall clock, I/O faults). *)

From Stdlib Require Import ZArith Ascii String List Lia Bool.
From stdpp Require Import base option list gmap strings.

Local Open Scope Z_scope.

(* ===================================================================== *)
(** ** [std::string] *)
(* ===================================================================== *)

Abbreviation filename_t := (list ascii).

(** String literals of the source. *)
Definition lit (s : string) : filename_t := list_ascii_of_string s.

Definition size_max : Z := 2 ^ 64.
Definition npos : Z := size_max - 1.

Definition size (s : filename_t) : Z := Z.of_nat (length s).

(** [a - b] on [size_t]. *)
Definition size_sub (a b : Z) : Z := (a - b) mod size_max.

(** [s.substr(pos, len)]; every call of the sink has [pos <= s.size()]. *)
Definition substr (s : filename_t) (pos len : Z) : filename_t :=
  take (Z.to_nat len) (drop (Z.to_nat pos) s).

(** [s.substr(pos)] *)
Definition substr_from (s : filename_t) (pos : Z) : filename_t :=
  drop (Z.to_nat pos) s.

(** [a * b] on [size_t]. *)
Definition size_mul (a b : Z) : Z := (a * b) mod size_max.

(** [s.resize(n)]: cut to [n] characters, or filled up with [char()]. *)
Definition resize (s : filename_t) (n : Z) : filename_t :=
  take (Z.to_nat n) s ++ replicate (Z.to_nat n - length s) zero.

Definition char_eqb (a b : ascii) : bool := Ascii.eqb a b.

(** Does [needle] occur at the start of [hay]? *)
Fixpoint starts_with (needle hay : filename_t) : bool :=
  match needle, hay with
  | [], _ => true
  | _ :: _, [] => false
  | a :: needle', b :: hay' => char_eqb a b && starts_with needle' hay'
  end.

Fixpoint find_at (needle hay : filename_t) (pos : Z) : Z :=
  if starts_with needle hay then pos
  else match hay with
       | [] => npos
       | _ :: hay' => find_at needle hay' (pos + 1)
       end.

(** [hay.find(needle)]: the first position of [needle], or [npos]. *)
Definition find (hay needle : filename_t) : Z := find_at needle hay 0.

Fixpoint rfind_at (needle hay : filename_t) (pos : Z) : Z :=
  match hay with
  | [] => if starts_with needle [] then pos else npos
  | _ :: hay' =>
      let later := rfind_at needle hay' (pos + 1) in
      if later =? npos
      then (if starts_with needle hay then pos else npos)
      else later
  end.

(** [hay.rfind(needle)]: the last position of [needle], or [npos]. *)
Definition rfind (hay needle : filename_t) : Z := rfind_at needle hay 0.

Definition char_in (c : ascii) (set : filename_t) : bool :=
  existsb (char_eqb c) set.

Fixpoint find_last_of_at (set hay : filename_t) (pos : Z) : Z :=
  match hay with
  | [] => npos
  | c :: hay' =>
      let later := find_last_of_at set hay' (pos + 1) in
      if later =? npos
      then (if char_in c set then pos else npos)
      else later
  end.

(** [hay.find_last_of(set)]: the last position of a character of [set]. *)
Definition find_last_of (hay set : filename_t) : Z :=
  find_last_of_at set hay 0.

(** [std::string::compare]: characters compare as unsigned bytes. *)
Fixpoint compare (a b : filename_t) : comparison :=
  match a, b with
  | [], [] => Eq
  | [], _ :: _ => Lt
  | _ :: _, [] => Gt
  | x :: a', y :: b' =>
      match N.compare (N_of_ascii x) (N_of_ascii y) with
      | Eq => compare a' b'
      | c => c
      end
  end.

(** [a <= b] on strings. *)
Definition str_le (a b : filename_t) : bool :=
  match compare a b with Gt => false | _ => true end.

(** [std::isdigit(chr) != 0] in the "C" locale. *)
Definition isdigit (chr : ascii) : bool :=
  let n := N_of_ascii chr in (48 <=? n)%N && (n <=? 57)%N.

(* ===================================================================== *)
(** ** [fmt]: the two replacement fields that the sink uses *)
(* ===================================================================== *)

Definition digit_char (d : Z) : ascii := ascii_of_N (Z.to_N (48 + d)).

(** Decimal digits of a non-negative number, most significant first. *)
Fixpoint decimal_digits (fuel : nat) (n : Z) (acc : filename_t) : filename_t :=
  match fuel with
  | O => acc
  | S fuel' =>
      let acc' := digit_char (n mod 10) :: acc in
      if n <? 10 then acc' else decimal_digits fuel' (n / 10) acc'
  end.

Definition decimal (n : Z) : filename_t :=
  decimal_digits (S (Z.to_nat (Z.log2 n))) n [].

(** [{:0Wd}]: sign first, then zeros up to a total width of [W]. *)
Definition fmt_0d (width : nat) (n : Z) : filename_t :=
  let sign := if n <? 0 then lit "-" else [] in
  let digits := decimal (Z.abs n) in
  sign ++ replicate (width - length sign - length digits) "0"%char ++ digits.

(* ===================================================================== *)
(** ** Calendar time and the clock *)
(* ===================================================================== *)

(** [struct tm] *)
Record tm : Type := mk_tm {
  tm_sec : Z;
  tm_min : Z;
  tm_hour : Z;
  tm_mday : Z;
  tm_mon : Z;
  tm_year : Z;
  tm_wday : Z;
  tm_yday : Z;
  tm_isdst : Z
}.

(** [date.tm_hour = h; date.tm_min = m; date.tm_sec = s;] *)
Definition set_hms (date : tm) (h m s : Z) : tm :=
  {| tm_sec := s; tm_min := m; tm_hour := h;
     tm_mday := tm_mday date; tm_mon := tm_mon date; tm_year := tm_year date;
     tm_wday := tm_wday date; tm_yday := tm_yday date;
     tm_isdst := tm_isdst date |}.

(** What the sink takes from the C library and from [std::chrono]:
    [details::os::localtime] (a wrapper of [localtime_r]), [std::mktime],
    and the number of [log_clock] ticks in a second. *)
Class Platform : Type := {
  localtime : Z -> tm;
  mktime : tm -> Z;
  ticks_per_second : Z
}.

(** A time zone at a fixed offset from UTC: no daylight saving shifts, no
    leap seconds. Every local day then lasts 86400 seconds, and a time of
    day on the local date of [t] is that many seconds after the start of
    the day. *)
Class FixedOffsetZone (P : Platform) (utc_offset : Z) : Prop := {
  ticks_positive : 0 < ticks_per_second;
  mktime_same_day : forall t h m,
    0 <= h <= 23 -> 0 <= m <= 59 ->
    mktime (set_hms (localtime t) h m 0)
    = t - (t + utc_offset) mod 86400 + 3600 * h + 60 * m
}.

(** *** The proleptic Gregorian calendar in UTC

    Modelled from the spec: the local time conversion of section 6
    ([to_calendar(timestamp) -> {year, month, day, hour, minute, second}])
    for a process whose zone is UTC; the runs at the end of the file use
    it. Day numbers count from 1970-01-01; a 400-year era has 146097 days
    and starts on a first of March. *)
Module Utc.

Definition days_from_civil (y m d : Z) : Z :=
  let y' := if m <=? 2 then y - 1 else y in
  let era := y' / 400 in
  let yoe := y' - era * 400 in
  let mp := if m >? 2 then m - 3 else m + 9 in
  let doy := (153 * mp + 2) / 5 + d - 1 in
  let doe := yoe * 365 + yoe / 4 - yoe / 100 + doy in
  era * 146097 + doe - 719468.

Definition civil_from_days (z : Z) : Z * Z * Z :=
  let z' := z + 719468 in
  let era := z' / 146097 in
  let doe := z' - era * 146097 in
  let yoe := (doe - doe / 1460 + doe / 36524 - doe / 146096) / 365 in
  let doy := doe - (365 * yoe + yoe / 4 - yoe / 100) in
  let mp := (5 * doy + 2) / 153 in
  let d := doy - (153 * mp + 2) / 5 + 1 in
  let m := if mp <? 10 then mp + 3 else mp - 9 in
  let y := yoe + era * 400 in
  (if m <=? 2 then y + 1 else y, m, d).

Definition gmtime (t : Z) : tm :=
  let days := t / 86400 in
  let secs := t mod 86400 in
  let '(y, m, d) := civil_from_days days in
  {| tm_sec := secs mod 60;
     tm_min := (secs / 60) mod 60;
     tm_hour := secs / 3600;
     tm_mday := d;
     tm_mon := m - 1;
     tm_year := y - 1900;
     tm_wday := (days + 4) mod 7;
     tm_yday := days - days_from_civil y 1 1;
     tm_isdst := 0 |}.

(** [mktime] with [TZ=UTC]; fields out of their range carry over. *)
Definition timegm (date : tm) : Z :=
  let months := tm_mon date in
  let y := tm_year date + 1900 + months / 12 in
  let m := months mod 12 + 1 in
  86400 * days_from_civil y m (tm_mday date)
  + 3600 * tm_hour date + 60 * tm_min date + tm_sec date.

(** A process in the UTC zone whose clock counts nanoseconds. *)
Definition platform : Platform :=
  {| localtime := gmtime; mktime := timegm; ticks_per_second := 1000000000 |}.

End Utc.

(** [log_clock::time_point] and [log_clock::duration] count ticks in a
    signed 64-bit integer. *)
Definition tp_min : Z := - 2 ^ 63.
Definition tp_max : Z := 2 ^ 63 - 1.

(** What a sum or a product of tick counts leaves in 64 bits: the low 64
    bits, read as a signed number. *)
Definition tp_wrap (ticks : Z) : Z := (ticks - tp_min) mod 2 ^ 64 + tp_min.

Section Clock.
Context {P : Platform}.

(** [log_clock::to_time_t]: a [duration_cast], which truncates to zero. *)
Definition to_time_t (tp : Z) : Z := Z.quot tp ticks_per_second.

(** [log_clock::from_time_t] *)
Definition from_time_t (t : Z) : Z := tp_wrap (t * ticks_per_second).

(** [std::chrono::hours(n)] as a tick count. *)
Definition hours (n : Z) : Z := n * 3600 * ticks_per_second.

End Clock.

(* ===================================================================== *)
(** ** Path helpers of [details::os] and [details::file_helper] *)
(* ===================================================================== *)

(** Modelled from the spec: [details::os::folder_seps_filename] is not
    part of this header; the directory separator of a POSIX build. *)
Definition folder_seps_filename : filename_t := lit "/".

(** Modelled from the spec: [details::file_helper::split_by_extension] is
    defined outside this header. The base name is split "at the last
    path-aware dot separator (the dot must follow the last directory
    separator; if none exists, extension is empty)". *)
Definition split_by_extension (fname : filename_t) : filename_t * filename_t :=
  let ext_index := rfind fname (lit ".") in
  let folder_index := find_last_of fname folder_seps_filename in
  if ext_index =? npos then (fname, [])
  else if negb (folder_index =? npos) && (ext_index <? folder_index)
       then (fname, [])
       else (substr fname 0 ext_index, substr_from fname ext_index).

(** Modelled from the spec: [details::os::dir_name] is defined outside
    this header. The base name is "split conceptually into (directory,
    stem, extension)": the directory is what precedes the last separator,
    and is empty when the path has none. [remove_obsolete_logs_] relies on
    both: it strips the separator that follows the directory and replaces
    an empty directory by ["."]. *)
Definition dir_name (path : filename_t) : filename_t :=
  let pos := find_last_of path folder_seps_filename in
  if pos =? npos then [] else substr path 0 pos.

(* ===================================================================== *)
(** ** [daily_filename_calculator] *)
(* ===================================================================== *)

(** [fmt_lib::format("{}_{:04d}-{:02d}-{:02d}{}", basename,
    now_tm.tm_year + 1900, now_tm.tm_mon + 1, now_tm.tm_mday, ext)] *)
Definition calc_filename (filename : filename_t) (now_tm : tm) : filename_t :=
  let '(basename, ext) := split_by_extension filename in
  basename ++ lit "_" ++ fmt_0d 4 (tm_year now_tm + 1900)
    ++ lit "-" ++ fmt_0d 2 (tm_mon now_tm + 1)
    ++ lit "-" ++ fmt_0d 2 (tm_mday now_tm) ++ ext.

(* ===================================================================== *)
(** ** [daily_filename_format_calculator] *)
(* ===================================================================== *)

(** The branch under [SPDLOG_USE_STD_FORMAT]. The other branch hands the
    pattern to [fmt::format] and is not modelled. *)
Module daily_filename_format_calculator.
Section Strftime.

(** The private [strftime], which calls [std::strftime] or
    [std::wcsftime], on [buf.data()] and [buf.size()]: the count it
    returns and the buffer it leaves. *)
Variable strftime : filename_t -> filename_t -> tm -> Z * filename_t.

(** [const size_t MIN_SIZE = 10;] *)
Definition MIN_SIZE : Z := 10.

(** The [for (;;)] loop; [fuel] bounds the number of calls of [strftime].
    A failure to allocate the buffer is not modelled. *)
Fixpoint fill (fuel : nat) (buf tm_format : filename_t) (now_tm : tm)
  : option filename_t :=
  match fuel with
  | O => None
  | S fuel' =>
      let '(count, buf) := strftime buf tm_format now_tm in
      if negb (count =? 0)
      then
        (* Remove the extra space. *)
        Some (resize buf (count - 1))
      else fill fuel' (resize buf (size_mul (size buf) 2)) tm_format now_tm
  end.

Definition calc_filename (fuel : nat) (filename : filename_t) (now_tm : tm)
  : option filename_t :=
  let tm_format := [] ++ filename in
  (* By appending an extra space we can distinguish an empty result that
     indicates insufficient buffer size from a guaranteed non-empty
     result. *)
  let tm_format := tm_format ++ [" "%char] in
  let buf := resize [] MIN_SIZE in
  fill fuel buf tm_format now_tm.

End Strftime.
End daily_filename_format_calculator.

(* ===================================================================== *)
(** ** The world outside the sink: files, clock, I/O faults *)
(* ===================================================================== *)

(** A path names a file through its components: empty components and
    ["."] are skipped, so ["./a//b"] and ["a/b"] name the same file while
    [".a"] names another one. *)
Abbreviation file_id := (bool * list filename_t)%type.

Fixpoint split_at_seps (path cur : filename_t) : list filename_t :=
  match path with
  | [] => [reverse cur]
  | c :: path' =>
      if char_in c folder_seps_filename
      then reverse cur :: split_at_seps path' []
      else split_at_seps path' (c :: cur)
  end.

Definition is_name (c : filename_t) : bool :=
  negb (bool_decide (c = []) || bool_decide (c = lit ".")).

Definition is_absolute (path : filename_t) : bool :=
  match path with
  | c :: _ => char_in c folder_seps_filename
  | [] => false
  end.

Definition resolve (path : filename_t) : file_id :=
  (is_absolute path,
   filter (fun c => is_name c = true) (split_at_seps path [])).

Inductive event : Type :=
  | EvOpen (fname : filename_t) (truncate : bool)
  | EvWrite (fname : filename_t) (buf : filename_t)
  | EvRemove (fname : filename_t)
  | EvIterateDir (folder : filename_t).

Record world : Type := mk_world {
  files : gmap file_id filename_t;      (* contents of the existing files *)
  cannot_open : filename_t -> bool;     (* [fopen] fails on this path *)
  cannot_write : filename_t -> bool;    (* [fwrite] fails on this file *)
  cannot_remove : filename_t -> bool;   (* [std::remove] fails on this file *)
  clock : nat -> Z;                     (* successive [log_clock::now()] *)
  clock_reads : nat;
  trace : list event                    (* calls made so far, oldest first *)
}.

Definition with_files (w : world) (f : gmap file_id filename_t) : world :=
  mk_world f (cannot_open w) (cannot_write w) (cannot_remove w)
    (clock w) (clock_reads w) (trace w).

Definition record_event (w : world) (e : event) : world :=
  mk_world (files w) (cannot_open w) (cannot_write w) (cannot_remove w)
    (clock w) (clock_reads w) (trace w ++ [e]).

Definition advance_clock (w : world) : world :=
  mk_world (files w) (cannot_open w) (cannot_write w) (cannot_remove w)
    (clock w) (S (clock_reads w)) (trace w).

(** Modelled from the spec: [details::os::path_exists] (section 6,
    [path_exists(path) -> bool]) is defined outside this header. *)
Definition path_exists (w : world) (path : filename_t) : bool :=
  bool_decide (is_Some (files w !! resolve path)).

(** The three changes that the sink makes to the files. *)
Definition create_file (fname : filename_t) (truncate : bool) (w : world)
  : world :=
  with_files w
    (<[resolve fname :=
         if truncate then [] else default [] (files w !! resolve fname)]>
       (files w)).

Definition append_file (fname buf : filename_t) (w : world) : world :=
  with_files w (alter (fun old => old ++ buf) (resolve fname) (files w)).

Definition delete_file (path : filename_t) (w : world) : world :=
  with_files w (delete (resolve path) (files w)).

(** Modelled from the spec: [std::remove], the [delete(path) ->
    success/failure] of section 6; 0 on success. *)
Definition os_remove (path : filename_t) (w : world) : Z * world :=
  if path_exists w path && negb (cannot_remove w path)
  then (0, delete_file path w)
  else (-1, w).

(** Modelled from the spec: [details::os::remove_if_exists] is defined
    outside this header. It is the deletion of section 6, [delete(path) ->
    success/failure], and section 4.3 names its failures: "entry does not
    exist, lacks permission". 0 on success. *)
Definition remove_if_exists (path : filename_t) (w : world) : Z * world :=
  os_remove path (record_event w (EvRemove path)).

(** Modelled from the spec: the entry names that [details::os::iterate_dir]
    passes to its callback ([list(directory) -> sequence of entry names]):
    the files whose path is one component below [folder]. *)
Definition dir_entries (w : world) (folder : filename_t) : list filename_t :=
  let '(root, dir) := resolve folder in
  omap (fun id : file_id =>
          let '(root', cs) := id in
          match reverse cs with
          | name :: rdir =>
              if bool_decide (root' = root /\ reverse rdir = dir)
              then Some name else None
          | [] => None
          end)
       (elements (dom (files w))).

(* ===================================================================== *)
(** ** The sink object and its monad *)
(* ===================================================================== *)

(** [details::log_msg], the fields the sink reads. *)
Record log_msg : Type := mk_log_msg {
  time : Z;
  payload : filename_t
}.

(** The exceptions ([spdlog_ex]) by the place that throws them. *)
Inductive spdlog_ex : Type :=
  | invalid_rotation_time
      (* "daily_file_sink: Invalid rotation time in ctor" *)
  | failed_removing_daily_file (fname : filename_t)
      (* "Failed removing daily file " + fname, errno *)
  | failed_opening_file (fname : filename_t)
      (* thrown by [file_helper::open] *)
  | failed_writing_to_file (fname : filename_t).
      (* thrown by [file_helper::write] *)

(** Modelled from the spec: [details::file_helper] is defined outside this
    header (section 6: [open(name, truncate)], [write(bytes)], [flush()],
    "each able to fail with an I/O error"). It holds at most one open
    file. *)
Record file_helper : Type := mk_file_helper {
  fd_open : bool;
  filename_ : filename_t
}.

Record daily_file_sink : Type := mk_sink {
  base_filename_ : filename_t;
  rotation_h_ : Z;
  rotation_m_ : Z;
  rotation_tp_ : Z;
  file_helper_ : file_helper;
  truncate_ : bool;
  max_files_ : Z;
  formatter_ : log_msg -> filename_t    (* [base_sink::formatter_] *)
}.

Definition set_rotation_tp_ (s : daily_file_sink) (tp : Z) : daily_file_sink :=
  mk_sink (base_filename_ s) (rotation_h_ s) (rotation_m_ s) tp
    (file_helper_ s) (truncate_ s) (max_files_ s) (formatter_ s).

Definition set_file_helper_ (s : daily_file_sink) (fh : file_helper)
  : daily_file_sink :=
  mk_sink (base_filename_ s) (rotation_h_ s) (rotation_m_ s) (rotation_tp_ s)
    fh (truncate_ s) (max_files_ s) (formatter_ s).

Inductive outcome (A : Type) : Type :=
  | Ret (a : A)
  | Throw (e : spdlog_ex).
Arguments Ret {A} a.
Arguments Throw {A} e.

(** A member function: it may change the object and the world, and it
    either returns or throws; what it did before throwing stays done. *)
Definition M (A : Type) : Type :=
  daily_file_sink * world -> outcome A * (daily_file_sink * world).

#[export] Instance M_ret : MRet M := fun A a st => (Ret a, st).

#[export] Instance M_bind : MBind M := fun A B k c st =>
  match c st with
  | (Ret a, st') => k a st'
  | (Throw e, st') => (Throw e, st')
  end.

Definition throw_spdlog_ex {A} (e : spdlog_ex) : M A := fun st => (Throw e, st).

Definition this : M daily_file_sink := fun st => (Ret (fst st), st).

Definition assign (f : daily_file_sink -> daily_file_sink) : M unit :=
  fun st => (Ret tt, (f (fst st), snd st)).

(** A call of a function of [details::os]. *)
Definition os_call {A} (f : world -> A * world) : M A :=
  fun st => let '(a, w) := f (snd st) in (Ret a, (fst st, w)).

(** [log_clock::now()] *)
Definition log_clock_now : M Z :=
  os_call (fun w => (clock w (clock_reads w), advance_clock w)).

(** Modelled from the spec: [file_helper::open] closes the file it holds,
    then creates, or with [truncate] empties, the named file. *)
Definition file_helper_open (fname : filename_t) (truncate : bool) : M unit :=
  fun '(s, w) =>
    let w := record_event w (EvOpen fname truncate) in
    if cannot_open w fname
    then (Throw (failed_opening_file fname),
          (set_file_helper_ s (mk_file_helper false fname), w))
    else (Ret tt,
          (set_file_helper_ s (mk_file_helper true fname),
           create_file fname truncate w)).

(** Modelled from the spec: [file_helper::write] appends to the open file
    (buffering is not modelled). *)
Definition file_helper_write (buf : filename_t) : M unit :=
  fun '(s, w) =>
    let fh := file_helper_ s in
    if negb (fd_open fh)
    then (Throw (failed_writing_to_file (filename_ fh)), (s, w))
    else
      let w := record_event w (EvWrite (filename_ fh) buf) in
      if cannot_write w (filename_ fh)
      then (Throw (failed_writing_to_file (filename_ fh)), (s, w))
      else (Ret tt, (s, append_file (filename_ fh) buf w)).

(** [iterate_dir(folder, callback)] *)
Fixpoint for_each (entries : list filename_t) (callback : filename_t -> M unit)
  : M unit :=
  match entries with
  | [] => mret tt
  | filename :: rest => _ ← callback filename; for_each rest callback
  end.

Definition iterate_dir (folder : filename_t) (callback : filename_t -> M unit)
  : M unit :=
  entries ← os_call (fun w =>
    (dir_entries w folder, record_event w (EvIterateDir folder)));
  for_each entries callback.

(* ===================================================================== *)
(** ** [daily_file_sink<Mutex, daily_filename_calculator>] *)
(* ===================================================================== *)

(** [static constexpr std::size_t suffix_size = 11; // _YYYY-mm-dd] *)
Definition suffix_size : Z := 11.

(** [static constexpr int is_separator[] {0, 0, 0, 0, 1, 0, 0, 1, 0, 0, 0};] *)
Definition is_separator : list Z := [0; 0; 0; 0; 1; 0; 0; 1; 0; 0; 0].

(** The [std::all_of] of [is_daily_log]; [itr] walks [is_separator]. The
    range it is given has ten characters, so [itr] stays inside the
    table. *)
Fixpoint all_of_date (itr : list Z) (chars : filename_t) : bool :=
  match chars with
  | [] => true
  | chr :: rest =>
      match itr with
      | [] => false
      | flag :: itr' =>
          (if negb (flag =? 0) then char_eqb chr "-"%char else isdigit chr)
          && all_of_date itr' rest
      end
  end.

(** The lambda [is_daily_log] with the variables it captures. *)
Definition is_daily_log (target_size : Z) (prefix ext : filename_t)
    (filename : filename_t) : bool :=
  if (size filename =? target_size)
     && (find filename prefix =? 0)
     && (rfind filename ext =? size_sub (size filename) (size ext))
  then
    all_of_date is_separator
      (take (Z.to_nat (size filename - size ext - size prefix))
            (drop (Z.to_nat (size prefix)) filename))
  else false.

(** The locals of [remove_obsolete_logs_] that depend on the base file
    name only: [folder], [basename], [prefix] and [ext]. *)
Definition obsolete_logs_pattern (base_filename : filename_t)
  : filename_t * filename_t * filename_t * filename_t :=
  let folder := dir_name base_filename in
  let sep := folder_seps_filename in
  let basename := substr_from base_filename (size folder) in
  let '(folder, basename) :=
    if find basename sep =? 0
    then (folder ++ sep, substr_from basename (size sep))
    else (folder, basename) in
  let '(prefix, ext) := split_by_extension basename in
  let prefix := prefix ++ lit "_" in
  let folder := if bool_decide (folder = []) then lit "." else folder in
  (folder, basename, prefix, ext).

Section Sink.
Context {P : Platform}.

Definition now_tm (tp : Z) : tm := localtime (to_time_t tp).

Definition cutoff_tp_ (s : daily_file_sink) (current : Z) : Z :=
  current - hours 24 * max_files_ s.

(** The body of [next_rotation_tp_] after it has read the clock. *)
Definition next_rotation (rotation_h rotation_m now : Z) : Z :=
  let date := set_hms (now_tm now) rotation_h rotation_m 0 in
  let rotation_time := from_time_t (mktime date) in
  if rotation_time >? now then rotation_time
  else tp_wrap (rotation_time + hours 24).

Definition next_rotation_tp_ : M Z :=
  now ← log_clock_now;
  s ← this;
  mret (next_rotation (rotation_h_ s) (rotation_m_ s) now).

Definition remove_obsolete_logs_ : M unit :=
  s ← this;
  let '(folder, basename, prefix, ext) :=
    obsolete_logs_pattern (base_filename_ s) in
  let target_size := size basename + suffix_size in
  now ← log_clock_now;
  let cutoff_tm := now_tm (cutoff_tp_ s now) in
  let cutoff_filename := calc_filename basename cutoff_tm in
  let cutoff_date := substr cutoff_filename (size prefix) (suffix_size - 1) in
  iterate_dir folder (fun filename =>
    if is_daily_log target_size prefix ext filename
    then
      let current_date := substr filename (size prefix) (suffix_size - 1) in
      if str_le current_date cutoff_date
      then _ ← os_call (remove_if_exists (folder ++ filename)); mret tt
      else mret tt
    else mret tt).

(** Delete the file N rotations ago; throw on failure to delete it. *)
Definition delete_old_ (current : Z) : M unit :=
  s ← this;
  let cutoff := now_tm (cutoff_tp_ s current) in
  let cutoff_filename := calc_filename (base_filename_ s) cutoff in
  r ← os_call (remove_if_exists cutoff_filename);
  let ok := r =? 0 in
  if negb ok
  then throw_spdlog_ex (failed_removing_daily_file cutoff_filename)
  else mret tt.

Definition sink_it_ (msg : log_msg) : M unit :=
  let time := time msg in
  s ← this;
  let should_rotate := time >=? rotation_tp_ s in
  _ ← (if should_rotate
       then
         let filename := calc_filename (base_filename_ s) (now_tm time) in
         _ ← file_helper_open filename (truncate_ s);
         tp ← next_rotation_tp_;
         assign (fun s => set_rotation_tp_ s tp)
       else mret tt);
  let formatted := formatter_ s msg in
  _ ← file_helper_write formatted;
  (* Do the cleaning only at the end because it might throw on failure. *)
  if should_rotate && (max_files_ s >? 0)
  then delete_old_ time
  else mret tt.

(** The constructor: the member initialisers, then the body. The object
    exists only if the body returns. *)
Definition daily_file_sink_body (rotation_hour rotation_minute : Z) : M unit :=
  if (rotation_hour <? 0) || (rotation_hour >? 23)
     || (rotation_minute <? 0) || (rotation_minute >? 59)
  then throw_spdlog_ex invalid_rotation_time
  else
    now ← log_clock_now;
    s ← this;
    let filename := calc_filename (base_filename_ s) (now_tm now) in
    _ ← file_helper_open filename (truncate_ s);
    tp ← next_rotation_tp_;
    _ ← assign (fun s => set_rotation_tp_ s tp);
    if max_files_ s >? 0 then remove_obsolete_logs_ else mret tt.

Definition daily_file_sink_ctor (formatter : log_msg -> filename_t)
    (base_filename : filename_t) (rotation_hour rotation_minute : Z)
    (truncate : bool) (max_files : Z) (w : world)
  : outcome daily_file_sink * world :=
  let self :=
    {| base_filename_ := base_filename;
       rotation_h_ := rotation_hour;
       rotation_m_ := rotation_minute;
       rotation_tp_ := 0;
       file_helper_ := mk_file_helper false [];
       truncate_ := truncate;
       max_files_ := max_files;
       formatter_ := formatter |} in
  match daily_file_sink_body rotation_hour rotation_minute (self, w) with
  | (Ret _, (s, w')) => (Ret s, w')
  | (Throw e, (_, w')) => (Throw e, w')
  end.

End Sink.

(** [daily_file_sink::filename()]; the lock it takes is not modelled. *)
Definition filename (s : daily_file_sink) : filename_t :=
  filename_ (file_helper_ s).

(** Successive calls of [sink_it_] on one object, with their outcomes. *)
Fixpoint sink_all {P : Platform} (msgs : list log_msg)
    (st : daily_file_sink * world)
  : list (outcome unit) * (daily_file_sink * world) :=
  match msgs with
  | [] => ([], st)
  | msg :: rest =>
      let '(r, st') := sink_it_ msg st in
      let '(rs, st'') := sink_all rest st' in
      (r :: rs, st'')
  end.

(** ** Runs in January 2024, UTC, with a nanosecond clock *)
Module Scenario.

(** Noon of a day of January 2024, as a [log_clock] time point. *)
Definition noon (day : Z) : Z :=
  (1704067200 + (day - 1) * 86400 + 12 * 3600) * 1000000000.

(** Midnight at the start of a day of January 2024. *)
Definition midnight (day : Z) : Z :=
  (1704067200 + (day - 1) * 86400) * 1000000000.

Definition formatter (msg : log_msg) : filename_t := payload msg ++ lit ";".

(** A world without I/O faults, with the given files and clock. *)
Definition world_of (contents : list (filename_t * filename_t))
    (clock : nat -> Z) : world :=
  {| files := list_to_map (map (fun '(p, c) => (resolve p, c)) contents);
     cannot_open := fun _ => false;
     cannot_write := fun _ => false;
     cannot_remove := fun _ => false;
     clock := clock;
     clock_reads := 0;
     trace := [] |}.

(** The sink is constructed at noon of the 1st and logs at noon of the
    1st, the 2nd and the 4th; nothing is logged on the 3rd. The clock is
    read three times by the constructor and once by each rotation. *)
Definition silent_day_clock (reads : nat) : Z :=
  match reads with
  | 0%nat | 1%nat | 2%nat => noon 1
  | 3%nat => noon 2
  | _ => noon 4
  end.

Definition silent_day_msgs : list log_msg :=
  [mk_log_msg (noon 1) (lit "a"); mk_log_msg (noon 2) (lit "b");
   mk_log_msg (noon 4) (lit "c")].

Definition constructed : outcome daily_file_sink * world :=
  @daily_file_sink_ctor Utc.platform formatter (lit "logs/app.log") 0 0 false 2
    (world_of [] silent_day_clock).

(** The outcomes of the three calls, and the object and the world after
    the first [n] of them. *)
Definition silent_day (n : nat)
  : option (list (outcome unit) * (daily_file_sink * world)) :=
  match constructed with
  | (Ret s, w) => Some (@sink_all Utc.platform (take n silent_day_msgs) (s, w))
  | (Throw _, _) => None
  end.

(** A base file name without a directory, and an old log in the working
    directory. *)
Definition no_folder : outcome daily_file_sink * world :=
  @daily_file_sink_ctor Utc.platform formatter (lit "app.log") 0 0 false 1
    (world_of [(lit "app_2020-01-01.log", lit "old");
               (lit "notes.txt", lit "n")]
       (fun _ => noon 1)).

(** The same with a directory in the base file name. *)
Definition in_folder : outcome daily_file_sink * world :=
  @daily_file_sink_ctor Utc.platform formatter (lit "logs/app.log") 0 0 false 1
    (world_of [(lit "logs/app_2020-01-01.log", lit "old");
               (lit "logs/notes.txt", lit "n")]
       (fun _ => noon 1)).

(** Section 8 of the specification: base name [app.log], rotation at
    00:00, no truncation, no retention limit; a record one second before
    midnight, then one a second after it. *)
Definition before_midnight : Z := midnight 2 - 1000000000.
Definition after_midnight : Z := midnight 2 + 1000000000.

Definition across_midnight
  : option (list (outcome unit) * (daily_file_sink * world)) :=
  match
    @daily_file_sink_ctor Utc.platform formatter (lit "app.log") 0 0 false 0
      (world_of []
         (fun reads =>
            match reads with
            | 0%nat | 1%nat => before_midnight
            | _ => after_midnight
            end))
  with
  | (Ret s, w) =>
      Some (@sink_all Utc.platform
              [mk_log_msg before_midnight (lit "x");
               mk_log_msg after_midnight (lit "y")] (s, w))
  | (Throw _, _) => None
  end.

(** The second scenario of section 8: a limit of two files and a record
    at noon of the 1st, the 2nd and the 3rd. *)
Definition three_days
  : option (list (outcome unit) * (daily_file_sink * world)) :=
  match
    @daily_file_sink_ctor Utc.platform formatter (lit "app.log") 0 0 false 2
      (world_of []
         (fun reads =>
            match reads with
            | 0%nat | 1%nat | 2%nat => noon 1
            | 3%nat => noon 2
            | _ => noon 3
            end))
  with
  | (Ret s, w) =>
      Some (@sink_all Utc.platform
              [mk_log_msg (noon 1) (lit "a"); mk_log_msg (noon 2) (lit "b");
               mk_log_msg (noon 3) (lit "c")] (s, w))
  | (Throw _, _) => None
  end.

(** The object that [constructed] returns. *)
Definition sink0 : daily_file_sink :=
  {| base_filename_ := lit "logs/app.log";
     rotation_h_ := 0;
     rotation_m_ := 0;
     rotation_tp_ := midnight 2;
     file_helper_ := mk_file_helper true (lit "logs/app_2024-01-01.log");
     truncate_ := false;
     max_files_ := 2;
     formatter_ := formatter |}.

(** A record stamped with the rotation instant itself. *)
Definition at_the_instant : log_msg := mk_log_msg (midnight 2) (lit "m").

(** The same object with a limit of one file, in a world where the file of
    the 1st exists and no file can be removed. *)
Definition sink1 : daily_file_sink :=
  {| base_filename_ := lit "logs/app.log";
     rotation_h_ := 0;
     rotation_m_ := 0;
     rotation_tp_ := midnight 2;
     file_helper_ := mk_file_helper true (lit "logs/app_2024-01-01.log");
     truncate_ := false;
     max_files_ := 1;
     formatter_ := formatter |}.

Definition locked_world : world :=
  {| files := {[resolve (lit "logs/app_2024-01-01.log") := lit "a;"]};
     cannot_open := fun _ => false;
     cannot_write := fun _ => false;
     cannot_remove := fun _ => true;
     clock := fun _ => noon 2;
     clock_reads := 3;
     trace := [] |}.

End Scenario.

(** ** Further runs in January 2024 *)
Module Cases.

(** The file of the 1st holds one record; the clock shows noon of the
    2nd. *)
Definition day1_world : world :=
  {| files := {[resolve (lit "logs/app_2024-01-01.log") := lit "a;"]};
     cannot_open := fun _ => false;
     cannot_write := fun _ => false;
     cannot_remove := fun _ => false;
     clock := fun _ => Scenario.noon 2;
     clock_reads := 3;
     trace := [] |}.

(** The same world when no file can be opened. *)
Definition unopenable_world : world :=
  {| files := files day1_world;
     cannot_open := fun _ => true;
     cannot_write := fun _ => false;
     cannot_remove := fun _ => false;
     clock := clock day1_world;
     clock_reads := 3;
     trace := [] |}.

(** The same world when no file can be written. *)
Definition unwritable_world : world :=
  {| files := files day1_world;
     cannot_open := fun _ => false;
     cannot_write := fun _ => true;
     cannot_remove := fun _ => false;
     clock := clock day1_world;
     clock_reads := 3;
     trace := [] |}.

(** A sink without a retention limit, a day after its construction. *)
Definition unlimited_sink : daily_file_sink :=
  {| base_filename_ := lit "logs/app.log";
     rotation_h_ := 0;
     rotation_m_ := 0;
     rotation_tp_ := Scenario.midnight 2;
     file_helper_ := mk_file_helper true (lit "logs/app_2024-01-01.log");
     truncate_ := false;
     max_files_ := 0;
     formatter_ := Scenario.formatter |}.


(** A record at noon of the 2nd. *)
Definition record2 : log_msg := mk_log_msg (Scenario.noon 2) (lit "b").

(** The sink of [Scenario.silent_day], constructed in a folder that holds
    the log of December 31st, and its three records. *)
Definition silent_day_in_use
  : option (list (outcome unit) * (daily_file_sink * world)) :=
  match
    @daily_file_sink_ctor Utc.platform Scenario.formatter
      (lit "logs/app.log") 0 0 false 2
      (Scenario.world_of [(lit "logs/app_2023-12-31.log", lit "z;")]
         Scenario.silent_day_clock)
  with
  | (Ret s, w) =>
      Some (@sink_all Utc.platform Scenario.silent_day_msgs (s, w))
  | (Throw _, _) => None
  end.

(** A folder with a log of 2020 and a file of another kind. *)
Definition old_logs_world : world :=
  Scenario.world_of [(lit "logs/app_2020-01-01.log", lit "old");
                     (lit "logs/notes.txt", lit "n")]
    (fun _ => Scenario.noon 1).

End Cases.

(* ===================================================================== *)
(** ** Definitions used to state and prove the properties *)
(* ===================================================================== *)

(** [std::string::max_size()]; a string of the program is never longer. *)
Definition max_size : Z := 2 ^ 63 - 1.

(** The last position whose suffix passes [test]: the common shape of
    [rfind] and [find_last_of]. *)
Fixpoint last_match (test : filename_t -> bool) (hay : filename_t) (pos : Z)
  : Z :=
  match hay with
  | [] => if test [] then pos else npos
  | _ :: hay' =>
      let later := last_match test hay' (pos + 1) in
      if later =? npos then (if test hay then pos else npos) else later
  end.

Definition head_in (set : filename_t) (s : filename_t) : bool :=
  match s with
  | c :: _ => char_in c set
  | [] => false
  end.

Definition head_is (p : ascii -> bool) (s : filename_t) : bool :=
  match s with
  | c :: _ => p c
  | [] => false
  end.

Definition is_dot (c : ascii) : bool := char_eqb "."%char c.
Definition is_sep (c : ascii) : bool := char_in c folder_seps_filename.

(** The first second of the local day of [t], in a zone at [utc_offset]. *)
Definition day_start (utc_offset t : Z) : Z := t - (t + utc_offset) mod 86400.

(** A check of every number below a bound, run by the virtual machine. *)
Fixpoint holds_from (f : Z -> bool) (n : nat) (z : Z) : bool :=
  match n with
  | O => true
  | S k => f z && holds_from f k (z + 1)
  end.

Definition holds_below (f : Z -> bool) (n : Z) : bool :=
  holds_from f (Z.to_nat n) 0.

(** Year of era, month and day of a day of the era, and back. *)
Definition era_round_trip (doe : Z) : bool :=
  let yoe := (doe - doe / 1460 + doe / 36524 - doe / 146096) / 365 in
  let doy := doe - (365 * yoe + yoe / 4 - yoe / 100) in
  let mp := (5 * doy + 2) / 153 in
  let d := doy - (153 * mp + 2) / 5 + 1 in
  let m := if mp <? 10 then mp + 3 else mp - 9 in
  (0 <=? yoe) && (yoe <? 400) && (1 <=? m) && (m <=? 12)
  && (1 <=? d) && (d <=? 31)
  && ((if m >? 2 then m - 3 else m + 9) =? mp)
  && (yoe * 365 + yoe / 4 - yoe / 100 + ((153 * mp + 2) / 5 + d - 1) =? doe).

(** The callback that [remove_obsolete_logs_] hands to [iterate_dir]. *)
Definition prune_entry (folder : filename_t) (obsolete : filename_t -> bool)
    (filename : filename_t) (w : world) : world :=
  if obsolete filename then (remove_if_exists (folder ++ filename) w).2 else w.

(** The test that [remove_obsolete_logs_] applies to a directory entry. *)
Definition is_obsolete (base_filename : filename_t) (cutoff_tm : tm)
    (filename : filename_t) : bool :=
  let '(_, basename, prefix, ext) := obsolete_logs_pattern base_filename in
  is_daily_log (size basename + suffix_size) prefix ext filename
  && str_le (substr filename (size prefix) (suffix_size - 1))
       (substr (calc_filename basename cutoff_tm) (size prefix)
          (suffix_size - 1)).

Definition obsolete_logs_folder (base_filename : filename_t) : filename_t :=
  (obsolete_logs_pattern base_filename).1.1.1.

(** The rotation times that the constructor accepts. *)
Definition valid_rotation_time (h m : Z) : Prop :=
  0 <= h <= 23 /\ 0 <= m <= 59.

(** The calls that ask for the removal of a file. *)
Definition is_removal (e : event) : bool :=
  match e with
  | EvRemove _ => true
  | _ => false
  end.

(** A time point at least 24 hours from both ends of the range of
    [log_clock::time_point]. *)
Definition far_from_the_ends {P : Platform} (tp : Z) : Prop :=
  tp_min + hours 24 <= tp <= tp_max - hours 24.

(** Every reading of the clock is such a time point. *)
Definition clock_in_range {P : Platform} (w : world) : Prop :=
  forall i, far_from_the_ends (clock w i).

(** The clock never runs backwards. *)
Definition monotone_clock (w : world) : Prop :=
  forall i j, (i <= j)%nat -> clock w i <= clock w j.

(** The stored rotation instant is what [next_rotation] made of an
    earlier reading of the clock, for a valid rotation time. *)
Definition rotation_tp_from_clock {P : Platform} (s : daily_file_sink)
    (w : world) : Prop :=
  valid_rotation_time (rotation_h_ s) (rotation_m_ s)
  /\ exists k,
       (k < clock_reads w)%nat
       /\ rotation_tp_ s
          = next_rotation (rotation_h_ s) (rotation_m_ s) (clock w k).

(** The objects and worlds of a run: an object is constructed, records
    are logged, and in between the files and the faults may change in any
    way while the clock goes on. *)
Inductive reachable {P : Platform} : daily_file_sink -> world -> Prop :=
  | reached_by_ctor formatter base h m truncate max_files w s w' :
      daily_file_sink_ctor formatter base h m truncate max_files w
      = (Ret s, w') ->
      reachable s w'
  | reached_by_sink_it msg s w r s' w' :
      reachable s w ->
      sink_it_ msg (s, w) = (r, (s', w')) ->
      reachable s' w'
  | reached_by_others s w w' :
      reachable s w ->
      clock w' = clock w ->
      clock_reads w' = clock_reads w ->
      reachable s w'.

(** The words of section 4.3 on the date region: ten characters, each a
    digit, except a dash after four and after seven characters. *)
Definition date_region (date : filename_t) : Prop :=
  length date = 10%nat
  /\ forall i c,
       date !! i = Some c ->
       if bool_decide (i = 4 \/ i = 7)%nat then c = "-"%char
       else isdigit c = true.

(** The words of section 4.1 on the split of the base name: the
    extension starts at the last dot, which has to follow the last
    directory separator; without such a dot the extension is empty. *)
Inductive stem_and_extension : filename_t -> filename_t -> filename_t -> Prop :=
  | with_extension (stem e : filename_t) :
      "."%char ∉ e -> "/"%char ∉ e ->
      stem_and_extension (stem ++ "."%char :: e) stem ("."%char :: e)
  | without_extension (base : filename_t) :
      (forall a b, base = a ++ "."%char :: b -> "/"%char ∈ b) ->
      stem_and_extension base base [].

(** [YYYY], [MM] and [DD] of section 4.1, digit by digit. *)
Definition four_digits (n : Z) : filename_t :=
  [digit_char (n / 1000); digit_char (n / 100 mod 10);
   digit_char (n / 10 mod 10); digit_char (n mod 10)].

Definition two_digits (n : Z) : filename_t :=
  [digit_char (n / 10); digit_char (n mod 10)].

(** [_YYYY-MM-DD] *)
Definition date_suffix (year month day : Z) : filename_t :=
  lit "_" ++ four_digits year ++ lit "-" ++ two_digits month
    ++ lit "-" ++ two_digits day.

(** The calendar date of a [tm] as one number: year, month, day. *)
Definition date_key (t : tm) : Z :=
  ((tm_year t + 1900) * 100 + (tm_mon t + 1)) * 100 + tm_mday t.

(** The fields of a [tm] fit the columns of [_YYYY-MM-DD]. *)
Definition fits_columns (t : tm) : Prop :=
  0 <= tm_year t + 1900 <= 9999
  /\ 0 <= tm_mon t + 1 <= 99
  /\ 0 <= tm_mday t <= 99.

(** [YYYY-MM-DD] *)
Definition date_text (year month day : Z) : filename_t :=
  four_digits year ++ lit "-" ++ two_digits month ++ lit "-" ++ two_digits day.

(** Comparisons in sequence: the first that is not [Eq] decides. *)
Definition then_compare (c1 c2 : comparison) : comparison :=
  match c1 with
  | Eq => c2
  | _ => c1
  end.


(** What the C standard says of [strftime], for an expansion [expand] of
    the conversion specifiers: the expansion and its terminator are
    written when they fit the buffer, and the length of the expansion is
    returned; otherwise 0 is returned, and the buffer keeps its size.
    A space is no conversion specifier and is copied. *)
Record strftime_contract
    (strftime : filename_t -> filename_t -> tm -> Z * filename_t)
    (expand : filename_t -> tm -> filename_t) : Prop := {
  strftime_fits : forall buf format t,
    size (expand format t) < size buf ->
    strftime buf format t
    = (size (expand format t),
       expand format t ++ zero :: drop (S (length (expand format t))) buf);
  strftime_overflow : forall buf format t,
    size buf <= size (expand format t) ->
    (strftime buf format t).1 = 0
    /\ size (strftime buf format t).2 = size buf;
  strftime_space : forall format t,
    expand (format ++ [" "%char]) t = expand format t ++ [" "%char]
}.

(** A [strftime] for patterns without conversion specifiers. *)
Definition strftime_literal (buf format : filename_t) (t : tm)
  : Z * filename_t :=
  if size format <? size buf
  then (size format, format ++ zero :: drop (S (length format)) buf)
  else (0, buf).

(* ===================================================================== *)
(** ** Strings *)
(* ===================================================================== *)

Lemma size_app (a b : filename_t) : size (a ++ b) = size a + size b.
Proof. unfold size. rewrite length_app. lia. Qed.

Lemma size_nonneg (a : filename_t) : 0 <= size a.
Proof. unfold size. lia. Qed.

Lemma char_eqb_true (a b : ascii) : char_eqb a b = true <-> a = b.
Proof. apply Ascii.eqb_eq. Qed.

Lemma char_eqb_refl (a : ascii) : char_eqb a a = true.
Proof. by apply char_eqb_true. Qed.

Lemma starts_with_app (needle rest : filename_t) :
  starts_with needle (needle ++ rest) = true.
Proof.
  induction needle as [|c needle IH]; simpl; [done|].
  by rewrite char_eqb_refl, IH.
Qed.

Lemma starts_with_refl (needle : filename_t) : starts_with needle needle = true.
Proof. rewrite <- (app_nil_r needle) at 2. apply starts_with_app. Qed.

Lemma starts_with_inv (needle hay : filename_t) :
  starts_with needle hay = true -> exists rest, hay = needle ++ rest.
Proof.
  revert hay. induction needle as [|c needle IH]; intros hay H.
  - by exists hay.
  - destruct hay as [|d hay]; simpl in H; [done|].
    apply andb_true_iff in H as [Hc Hrest].
    apply char_eqb_true in Hc as ->.
    destruct (IH _ Hrest) as [rest ->]. by exists rest.
Qed.

Lemma find_at_from (needle hay : filename_t) (pos : Z) :
  find_at needle hay pos = npos \/ pos <= find_at needle hay pos.
Proof.
  revert pos. induction hay as [|c hay IH]; intros pos; simpl.
  - destruct (starts_with needle []); [right; lia | by left].
  - destruct (starts_with needle (c :: hay)); [right; lia|].
    destruct (IH (pos + 1)) as [->|]; [by left | right; lia].
Qed.

Lemma find_zero (hay needle : filename_t) :
  find hay needle = 0 <-> starts_with needle hay = true.
Proof.
  unfold find. destruct hay as [|c hay]; simpl;
    destruct (starts_with needle _) eqn:E; try done.
  split; [|done]. intros H.
  destruct (find_at_from needle hay (0 + 1)) as [E'|E']; rewrite H in E';
    [done | lia].
Qed.

Lemma rfind_at_last_match (needle hay : filename_t) (pos : Z) :
  rfind_at needle hay pos = last_match (starts_with needle) hay pos.
Proof.
  revert pos. induction hay as [|c hay IH]; intros pos; simpl; [done|].
  by rewrite IH.
Qed.

Lemma find_last_of_at_last_match (set hay : filename_t) (pos : Z) :
  find_last_of_at set hay pos = last_match (head_in set) hay pos.
Proof.
  revert pos. induction hay as [|c hay IH]; intros pos; simpl; [done|].
  by rewrite IH.
Qed.

(** What [last_match] returns, as long as positions stay below [npos]. *)
Lemma last_match_spec (test : filename_t -> bool) (hay : filename_t) (pos : Z) :
  0 <= pos -> pos + size hay < npos ->
  (last_match test hay pos = npos
   /\ forall k, (k <= length hay)%nat -> test (drop k hay) = false)
  \/ (exists k, (k <= length hay)%nat
      /\ last_match test hay pos = pos + Z.of_nat k
      /\ test (drop k hay) = true
      /\ forall j, (k < j <= length hay)%nat -> test (drop j hay) = false).
Proof.
  revert pos. induction hay as [|c hay IH]; intros pos Hpos Hlt.
  - simpl. destruct (test []) eqn:E.
    + right. exists 0%nat. simpl. split_and!; try done; lia.
    + left. split; [done|]. intros k Hk.
      by replace k with 0%nat by (simpl in Hk; lia).
  - unfold size in *. simpl length in *.
    destruct (IH (pos + 1)) as [[E Hnone]|(k & Hk & E & Hyes & Hno)];
      [lia | lia | |].
    + simpl. rewrite E, Z.eqb_refl. destruct (test (c :: hay)) eqn:Et.
      * right. exists 0%nat. simpl. split_and!; try done; try lia.
        intros [|j] Hj; [lia|]. simpl. apply Hnone. lia.
      * left. split; [done|]. intros [|k] Hk; [done|].
        simpl. apply Hnone. lia.
    + simpl. rewrite E.
      destruct (Z.eqb_spec (pos + 1 + Z.of_nat k) npos) as [Heq|_]; [lia|].
      right. exists (S k). simpl. split_and!; try done; try lia.
      intros [|j] Hj; [lia|]. simpl. apply Hno. lia.
Qed.

(** [hay.rfind(needle)] when [hay] ends with [needle]. *)
Lemma rfind_suffix (a needle : filename_t) :
  size (a ++ needle) < npos -> rfind (a ++ needle) needle = size a.
Proof.
  intros Hlt. unfold rfind. rewrite rfind_at_last_match.
  destruct (last_match_spec (starts_with needle) (a ++ needle) 0)
    as [[_ Hnone]|(k & Hk & -> & Hyes & Hno)]; [lia | lia | |].
  - assert (Hocc : starts_with needle (drop (length a) (a ++ needle)) = false).
    { apply Hnone. rewrite length_app. lia. }
    by rewrite drop_app_length, starts_with_refl in Hocc.
  - apply starts_with_inv in Hyes as [rest Hrest].
    assert (Hlen : length (drop k (a ++ needle)) = length (needle ++ rest))
      by by rewrite Hrest.
    rewrite length_drop, !length_app in Hlen. rewrite length_app in Hk.
    destruct (decide (k < length a)%nat) as [Hsmall|Hbig].
    + assert (Hocc : starts_with needle (drop (length a) (a ++ needle))
                     = false).
      { apply Hno. rewrite length_app. lia. }
      by rewrite drop_app_length, starts_with_refl in Hocc.
    + unfold size. lia.
Qed.

Lemma last_match_ext (t1 t2 : filename_t -> bool) (hay : filename_t) (pos : Z) :
  (forall s, t1 s = t2 s) -> last_match t1 hay pos = last_match t2 hay pos.
Proof.
  intros Hext. revert pos. induction hay as [|c hay IH]; intros pos; simpl.
  - by rewrite Hext.
  - by rewrite IH, Hext.
Qed.

Lemma last_match_head (p : ascii -> bool) (hay : filename_t) (pos : Z) :
  0 <= pos -> pos + size hay < npos ->
  (last_match (head_is p) hay pos = npos
   /\ forall c, c ∈ hay -> p c = false)
  \/ (exists a c b, hay = a ++ c :: b
      /\ last_match (head_is p) hay pos = pos + size a
      /\ p c = true
      /\ forall x, x ∈ b -> p x = false).
Proof.
  revert pos. induction hay as [|c hay IH]; intros pos Hpos Hlt.
  - left. split; [done|]. intros c Hc. by apply elem_of_nil in Hc.
  - unfold size in *. simpl length in *. simpl last_match.
    destruct (IH (pos + 1)) as [[E Hnone]|(a & d & b & -> & E & Hd & Hb)];
      [lia | lia | |].
    + rewrite E, Z.eqb_refl. simpl. destruct (p c) eqn:Ec.
      * right. exists [], c, hay. simpl. split_and!; try done; lia.
      * left. split; [done|]. intros x Hx.
        apply elem_of_cons in Hx as [->|Hx]; [done | by apply Hnone].
    + rewrite E. rewrite length_app in Hlt. simpl in Hlt.
      destruct (Z.eqb_spec (pos + 1 + Z.of_nat (length a)) npos) as [Heq|_];
        [lia|].
      right. exists (c :: a), d, b. simpl. split_and!; try done; lia.
Qed.

Lemma rfind_dot (hay : filename_t) :
  rfind hay (lit ".") = last_match (head_is is_dot) hay 0.
Proof.
  unfold rfind. rewrite rfind_at_last_match. apply last_match_ext.
  intros [|c s]; simpl; [done|]. unfold is_dot. by rewrite andb_true_r.
Qed.

Lemma find_last_of_seps (hay : filename_t) :
  find_last_of hay folder_seps_filename = last_match (head_is is_sep) hay 0.
Proof.
  unfold find_last_of. rewrite find_last_of_at_last_match.
  apply last_match_ext. by intros [|c s].
Qed.

Lemma is_dot_false (c : ascii) : is_dot c = false <-> c <> "."%char.
Proof.
  unfold is_dot. rewrite <- not_true_iff_false, char_eqb_true. naive_solver.
Qed.

Lemma is_sep_false (c : ascii) : is_sep c = false <-> c <> "/"%char.
Proof.
  unfold is_sep, folder_seps_filename. simpl. rewrite orb_false_r.
  rewrite <- not_true_iff_false, char_eqb_true. naive_solver.
Qed.

Lemma is_sep_true (c : ascii) : is_sep c = true <-> c = "/"%char.
Proof.
  unfold is_sep, folder_seps_filename. simpl. rewrite orb_false_r.
  apply char_eqb_true.
Qed.

Lemma is_dot_true (c : ascii) : is_dot c = true <-> c = "."%char.
Proof. unfold is_dot. rewrite char_eqb_true. naive_solver. Qed.

Lemma lookup_after_middle (a b : filename_t) (c x : ascii) (i : nat) :
  (a ++ c :: b) !! i = Some x -> (length a < i)%nat -> x ∈ b.
Proof.
  intros Hi Hlt. rewrite lookup_app_r in Hi by lia.
  destruct (i - length a)%nat as [|j] eqn:E; [lia|]. simpl in Hi.
  by eapply list_elem_of_lookup_2.
Qed.

Lemma lookup_in_tail (a b : filename_t) (c x : ascii) :
  x ∈ b -> exists i, (length a < i)%nat /\ (a ++ c :: b) !! i = Some x.
Proof.
  intros [j Hj]%list_elem_of_lookup. exists (length a + S j)%nat.
  split; [lia|]. rewrite lookup_app_r by lia.
  by replace (length a + S j - length a)%nat with (S j) by lia.
Qed.

Lemma split_by_extension_spec (base : filename_t) :
  size base < npos ->
  stem_and_extension base
    (split_by_extension base).1 (split_by_extension base).2.
Proof.
  intros Hlt. unfold split_by_extension.
  rewrite rfind_dot, find_last_of_seps.
  destruct (last_match_head is_dot base 0)
    as [[-> Hnodot]|(a & c & b & Hbase & -> & Hc & Hb)]; [lia | lia | |].
  - rewrite Z.eqb_refl. simpl. constructor. intros a b ->.
    specialize (Hnodot "."%char). rewrite elem_of_app, elem_of_cons in Hnodot.
    discriminate Hnodot. auto.
  - apply is_dot_true in Hc as ->. subst base.
    assert (Ha : size a < npos).
    { rewrite size_app in Hlt. pose proof (size_nonneg ("."%char :: b)). lia. }
    pose proof (size_nonneg a) as Ha0.
    destruct (Z.eqb_spec (0 + size a) npos) as [?|_]; [lia|].
    assert (Hsplit : (substr (a ++ "."%char :: b) 0 (0 + size a),
                      substr_from (a ++ "."%char :: b) (0 + size a))
                     = (a, "."%char :: b)).
    { unfold substr, substr_from. rewrite Z.add_0_l. unfold size.
      rewrite Nat2Z.id. simpl. rewrite drop_0.
      by rewrite take_app_length, drop_app_length. }
    rewrite Hsplit. clear Hsplit.
    assert (Hnodot : "."%char ∉ b).
    { intros Hin. apply Hb in Hin. by apply is_dot_false in Hin. }
    destruct (last_match_head is_sep (a ++ "."%char :: b) 0)
      as [[-> Hnosep]|(a' & c' & b' & Hbase' & -> & Hc' & Hb')];
      [lia | lia | |].
    + rewrite Z.eqb_refl. simpl. constructor; [done|].
      intros Hin. assert (Hs : is_sep "/"%char = false); [|done].
      apply Hnosep. rewrite elem_of_app, elem_of_cons. auto.
    + apply is_sep_true in Hc' as ->.
      unfold size.
      destruct (Z.eqb_spec (0 + Z.of_nat (length a')) npos) as [?|_].
      { rewrite Hbase', size_app in Hlt.
        pose proof (size_nonneg ("/"%char :: b')). unfold size in *. lia. }
      simpl.
      destruct (Z.ltb_spec (0 + Z.of_nat (length a))
                  (0 + Z.of_nat (length a'))) as [Hlen|Hlen]; simpl.
      * constructor. intros x y Hxy.
        assert (Hx : (length x <= length a)%nat).
        { destruct (decide (length x <= length a)%nat) as [|Hn]; [done|].
          exfalso. apply Hnodot.
          apply (lookup_after_middle a b "."%char "."%char (length x)); [|lia].
          rewrite Hxy. apply list_lookup_middle. done. }
        apply (lookup_after_middle x y "."%char "/"%char (length a')); [|lia].
        rewrite <- Hxy, Hbase'. by apply list_lookup_middle.
      * constructor; [done|]. intros Hin.
        destruct (lookup_in_tail a b "."%char _ Hin) as (i & Hi & Hlook).
        assert (Hne : length a <> length a').
        { intros Heq.
          pose proof (list_lookup_middle a b "."%char (length a) eq_refl) as H1.
          rewrite Hbase', Heq in H1.
          rewrite (list_lookup_middle a' b' "/"%char (length a') eq_refl) in H1.
          discriminate H1. }
        rewrite Hbase' in Hlook.
        apply lookup_after_middle in Hlook; [|lia].
        apply Hb' in Hlook. by apply is_sep_false in Hlook.
Qed.

Lemma holds_from_spec (f : Z -> bool) (n : nat) (z0 : Z) :
  holds_from f n z0 = true ->
  forall z, z0 <= z < z0 + Z.of_nat n -> f z = true.
Proof.
  revert z0. induction n as [|n IH]; intros z0 H z Hz; [lia|].
  simpl in H. apply andb_true_iff in H as [Hn Hrest].
  destruct (decide (z = z0)) as [->|Hne]; [done|].
  apply (IH (z0 + 1)); [done | lia].
Qed.

Lemma holds_below_Z (f : Z -> bool) (n : Z) :
  holds_below f n = true -> forall z, 0 <= z < n -> f z = true.
Proof. intros H z Hz. apply (holds_from_spec f (Z.to_nat n) 0 H). lia. Qed.

Lemma era_checked : holds_below era_round_trip 146097 = true.
Proof. vm_compute. reflexivity. Qed.

Lemma civil_from_days_inv (z : Z) :
  let '(y, m, d) := Utc.civil_from_days z in
  Utc.days_from_civil y m d = z /\ 1 <= m <= 12 /\ 1 <= d <= 31.
Proof.
  unfold Utc.civil_from_days.
  set (era := (z + 719468) / 146097).
  set (doe := z + 719468 - era * 146097).
  assert (Hdoe : 0 <= doe < 146097).
  { subst doe era. pose proof (Z.mod_pos_bound (z + 719468) 146097).
    rewrite Z.mod_eq in H by lia. lia. }
  pose proof (holds_below_Z _ _ era_checked doe Hdoe) as Hc.
  unfold era_round_trip in Hc.
  set (yoe := (doe - doe / 1460 + doe / 36524 - doe / 146096) / 365) in *.
  set (doy := doe - (365 * yoe + yoe / 4 - yoe / 100)) in *.
  set (mp := (5 * doy + 2) / 153) in *.
  set (d := doy - (153 * mp + 2) / 5 + 1) in *.
  set (m := if mp <? 10 then mp + 3 else mp - 9) in *.
  repeat (apply andb_true_iff in Hc as [Hc ?]).
  repeat match goal with
         | H : (_ <=? _) = true |- _ => apply Z.leb_le in H
         | H : (_ <? _) = true |- _ => apply Z.ltb_lt in H
         | H : (_ =? _) = true |- _ => apply Z.eqb_eq in H
         end.
  split; [|lia].
  unfold Utc.days_from_civil.
  set (y := yoe + era * 400).
  assert (Hy : (if m <=? 2
                then (if m <=? 2 then y + 1 else y) - 1
                else (if m <=? 2 then y + 1 else y))
               = y) by (destruct (m <=? 2); lia).
  rewrite Hy. subst y.
  assert (He : (yoe + era * 400) / 400 = era).
  { rewrite Z.div_add by lia. rewrite Z.div_small by lia. lia. }
  rewrite He.
  replace (yoe + era * 400 - era * 400) with yoe by lia.
  match goal with H : (if m >? 2 then _ else _) = mp |- _ => rewrite H end.
  subst doe. lia.
Qed.

Lemma fmt_0d_four (n : Z) : 0 <= n <= 9999 -> fmt_0d 4 n = four_digits n.
Proof.
  intros Hn.
  assert (H : holds_below
                (fun z => bool_decide (fmt_0d 4 z = four_digits z)) 10000
              = true) by (vm_compute; reflexivity).
  eapply bool_decide_eq_true_1, (holds_below_Z _ _ H). lia.
Qed.

Lemma fmt_0d_two (n : Z) : 0 <= n <= 99 -> fmt_0d 2 n = two_digits n.
Proof.
  intros Hn.
  assert (H : holds_below
                (fun z => bool_decide (fmt_0d 2 z = two_digits z)) 100
              = true) by (vm_compute; reflexivity).
  eapply bool_decide_eq_true_1, (holds_below_Z _ _ H). lia.
Qed.

Lemma stem_and_extension_app (base stem ext : filename_t) :
  stem_and_extension base stem ext -> base = stem ++ ext.
Proof. intros [s e _ _|b _]; [done | by rewrite app_nil_r]. Qed.

Lemma calc_filename_unfold (base : filename_t) (t : tm) :
  calc_filename base t
  = (split_by_extension base).1
      ++ lit "_" ++ fmt_0d 4 (tm_year t + 1900)
      ++ lit "-" ++ fmt_0d 2 (tm_mon t + 1)
      ++ lit "-" ++ fmt_0d 2 (tm_mday t) ++ (split_by_extension base).2.
Proof. unfold calc_filename. by destruct (split_by_extension base). Qed.

Lemma calc_filename_date_suffix (base : filename_t) (t : tm) :
  0 <= tm_year t + 1900 <= 9999 ->
  0 <= tm_mon t + 1 <= 99 ->
  0 <= tm_mday t <= 99 ->
  calc_filename base t
  = (split_by_extension base).1
      ++ date_suffix (tm_year t + 1900) (tm_mon t + 1) (tm_mday t)
      ++ (split_by_extension base).2.
Proof.
  intros Hy Hm Hd. rewrite calc_filename_unfold.
  rewrite fmt_0d_four, !fmt_0d_two by done.
  unfold date_suffix. by rewrite <- !app_assoc.
Qed.


Lemma stem_and_extension_unique (base s1 e1 s2 e2 : filename_t) :
  stem_and_extension base s1 e1 -> stem_and_extension base s2 e2 ->
  s1 = s2 /\ e1 = e2.
Proof.
  intros H1 H2. destruct H1 as [s1 e1 Hd1 Hs1|base Hnone1].
  - inversion H2 as [s2' e2' Hd2 Hs2 Hbase|base' Hnone2]; subst.
    + assert (Hlen : length s1 = length s2).
      { destruct (Nat.lt_total (length s1) (length s2)) as [Hlt|[Heq|Hlt]];
          [exfalso|done|exfalso].
        - apply Hd1.
          apply (lookup_after_middle s1 e1 "."%char "."%char (length s2));
            [|done].
          rewrite <- Hbase. by apply list_lookup_middle.
        - apply Hd2.
          apply (lookup_after_middle s2 e2' "."%char "."%char (length s1));
            [|done].
          rewrite Hbase. by apply list_lookup_middle. }
      apply app_inj_1 in Hbase as [-> [= ->]]; done.
    + exfalso. apply Hs1. by apply (Hnone2 s1 e1).
  - inversion H2 as [s2' e2' Hd2 Hs2 Hbase|base' Hnone2]; subst; [|done].
    exfalso. apply Hs2. by apply (Hnone1 s2 e2').
Qed.

Lemma stem_and_extension_in_folder (dir basename stem ext : filename_t) :
  "/"%char ∉ basename ->
  (dir = [] \/ exists d, dir = d ++ lit "/") ->
  stem_and_extension basename stem ext ->
  stem_and_extension (dir ++ basename) (dir ++ stem) ext.
Proof.
  intros Hnosep Hdir Hsplit. destruct Hsplit as [stem e Hd Hs|basename Hnone].
  - rewrite app_assoc. by constructor.
  - constructor. intros a b Hab.
    destruct Hdir as [->|[d ->]]; [by apply (Hnone a b)|].
    destruct (decide (length a < length d)%nat) as [Hlt|Hge].
    + apply (lookup_after_middle a b "."%char "/"%char (length d)); [|done].
      rewrite <- Hab, <- !app_assoc. by apply list_lookup_middle.
    + assert (Hne : length a <> length d).
      { intros Heq.
        pose proof (list_lookup_middle a b "."%char (length a) eq_refl) as H1.
        rewrite <- Hab, <- app_assoc, Heq in H1. simpl in H1.
        by rewrite (list_lookup_middle d basename "/"%char) in H1. }
      apply (Hnone (drop (length (d ++ lit "/")) a)).
      apply (f_equal (drop (length (d ++ lit "/")))) in Hab.
      rewrite drop_app_length in Hab. rewrite Hab.
      apply drop_app_le. rewrite length_app. simpl. lia.
Qed.

(** What [remove_obsolete_logs_] makes of the base file name. *)
Lemma obsolete_logs_pattern_spec (base : filename_t) :
  size base < npos ->
  exists dir basename,
    base = dir ++ basename
    /\ ("/"%char ∉ basename)
    /\ (dir = [] \/ exists d, dir = d ++ lit "/")
    /\ obsolete_logs_pattern base
       = (if bool_decide (dir = []) then lit "." else dir,
          basename,
          (split_by_extension basename).1 ++ lit "_",
          (split_by_extension basename).2).
Proof.
  intros Hlt. unfold obsolete_logs_pattern, dir_name.
  rewrite find_last_of_seps.
  destruct (last_match_head is_sep base 0)
    as [[-> Hnosep]|(a & c & b & -> & -> & Hc & Hb)]; [lia | lia | |].
  - rewrite Z.eqb_refl. exists [], base. simpl.
    assert (Hno : "/"%char ∉ base).
    { intros Hin. apply Hnosep in Hin. by apply is_sep_false in Hin. }
    split_and!; [done | done | by left |].
    unfold substr_from. simpl. rewrite drop_0.
    destruct (Z.eqb_spec (find base folder_seps_filename) 0) as [E|_].
    + apply find_zero, starts_with_inv in E as [rest ->].
      exfalso. apply Hno. by left.
    + by destruct (split_by_extension base).
  - apply is_sep_true in Hc as ->.
    assert (Hno : "/"%char ∉ b).
    { intros Hin. apply Hb in Hin. by apply is_sep_false in Hin. }
    pose proof (size_nonneg a). rewrite size_app in Hlt.
    pose proof (size_nonneg ("/"%char :: b)).
    destruct (Z.eqb_spec (0 + size a) npos) as [?|_]; [lia|].
    exists (a ++ lit "/"), b. rewrite <- app_assoc.
    split_and!; [done | done | right; by exists a |].
    assert (E1 : substr (a ++ "/"%char :: b) 0 (0 + size a) = a).
    { unfold substr, size. rewrite Z.add_0_l, Nat2Z.id.
      change (Z.to_nat 0) with 0%nat. by rewrite drop_0, take_app_length. }
    assert (E2 : substr_from (a ++ "/"%char :: b) (size a) = "/"%char :: b).
    { unfold substr_from, size. by rewrite Nat2Z.id, drop_app_length. }
    assert (E3 : find ("/"%char :: b) folder_seps_filename = 0)
      by by apply find_zero.
    rewrite E1, E2, E3. simpl.
    unfold substr_from.
    change (Z.to_nat (size folder_seps_filename)) with 1%nat.
    simpl. rewrite drop_0.
    destruct (split_by_extension b).
    reflexivity.
Qed.

Lemma isdigit_digit_char (d : Z) : 0 <= d <= 9 -> isdigit (digit_char d) = true.
Proof.
  intros Hd.
  assert (H : holds_below (fun z => isdigit (digit_char z)) 10
              = true) by (vm_compute; reflexivity).
  apply (holds_below_Z _ _ H). lia.
Qed.

Lemma date_suffix_shape (y m d : Z) :
  0 <= y <= 9999 -> 0 <= m <= 99 -> 0 <= d <= 99 ->
  exists date,
    date_suffix y m d = lit "_" ++ date
    /\ length date = 10%nat
    /\ all_of_date is_separator date = true.
Proof.
  intros Hy Hm Hd. eexists. split; [reflexivity|]. split; [reflexivity|].
  simpl.
  by rewrite !isdigit_digit_char
    by (Z.to_euclidean_division_equations; lia).
Qed.


(* ===================================================================== *)
(** ** The UTC calendar is a fixed-offset zone *)
(* ===================================================================== *)

Lemma gmtime_fields (t : Z) :
  exists y m d,
    Utc.civil_from_days (t / 86400) = (y, m, d)
    /\ tm_sec (Utc.gmtime t) = (t mod 86400) mod 60
    /\ tm_min (Utc.gmtime t) = (t mod 86400 / 60) mod 60
    /\ tm_hour (Utc.gmtime t) = t mod 86400 / 3600
    /\ tm_mday (Utc.gmtime t) = d
    /\ tm_mon (Utc.gmtime t) = m - 1
    /\ tm_year (Utc.gmtime t) = y - 1900.
Proof.
  unfold Utc.gmtime.
  destruct (Utc.civil_from_days (t / 86400)) as [[y m] d].
  by exists y, m, d.
Qed.

#[export] Instance utc_fixed_offset : FixedOffsetZone Utc.platform 0.
Proof.
  split; cbn [localtime mktime ticks_per_second Utc.platform]; [done|].
  intros t h m Hh Hm.
  destruct (gmtime_fields t) as (y & mo & d & Hc & _ & _ & _ & Ed & Em & Ey).
  unfold Utc.timegm, set_hms.
  cbn [tm_mon tm_year tm_mday tm_hour tm_min tm_sec]. rewrite Ed, Em, Ey.
  pose proof (civil_from_days_inv (t / 86400)) as Hinv.
  rewrite Hc in Hinv. destruct Hinv as (Hdays & Hmo & Hd).
  replace ((mo - 1) / 12) with 0 by (Z.to_euclidean_division_equations; lia).
  replace ((mo - 1) mod 12 + 1) with mo
    by (Z.to_euclidean_division_equations; lia).
  replace (y - 1900 + 1900 + 0) with y by lia.
  rewrite Hdays, Z.add_0_r. Z.to_euclidean_division_equations; lia.
Qed.

(* ===================================================================== *)
(** ** The rotation clock in a fixed-offset zone *)
(* ===================================================================== *)

Section RotationClock.
Context {P : Platform} {utc_offset : Z} {zone : FixedOffsetZone P utc_offset}.

Local Abbreviation day_start := (day_start utc_offset).

Lemma to_time_t_bounds (now : Z) :
  to_time_t now * ticks_per_second - ticks_per_second < now
  /\ now < to_time_t now * ticks_per_second + ticks_per_second.
Proof.
  pose proof ticks_positive as Hpos. unfold to_time_t.
  pose proof (Z.quot_rem' now ticks_per_second) as Hqr.
  pose proof (Z.rem_bound_abs now ticks_per_second) as Habs.
  assert (Hrem : - ticks_per_second < Z.rem now ticks_per_second
                 < ticks_per_second) by lia.
  lia.
Qed.

Lemma to_time_t_mono (now1 now2 : Z) :
  now1 <= now2 -> to_time_t now1 <= to_time_t now2.
Proof.
  intros H. unfold to_time_t. apply Z.quot_le_mono; [|done].
  apply ticks_positive.
Qed.

Lemma day_start_bounds (t : Z) : day_start t <= t < day_start t + 86400.
Proof.
  unfold day_start. pose proof (Z.mod_pos_bound (t + utc_offset) 86400). lia.
Qed.

Lemma day_start_grid (t : Z) :
  day_start t = 86400 * ((t + utc_offset) / 86400) - utc_offset.
Proof. unfold day_start. rewrite Z.mod_eq by lia. lia. Qed.

Lemma day_start_step (t1 t2 : Z) :
  t1 <= t2 ->
  day_start t1 = day_start t2 \/ day_start t1 + 86400 <= day_start t2.
Proof.
  intros H. rewrite !day_start_grid.
  assert ((t1 + utc_offset) / 86400 <= (t2 + utc_offset) / 86400)
    by (apply Z.div_le_mono; lia).
  lia.
Qed.

Lemma tp_wrap_in_range (ticks : Z) :
  tp_min <= ticks <= tp_max -> tp_wrap ticks = ticks.
Proof.
  intros H. unfold tp_wrap, tp_min, tp_max in *.
  rewrite Z.mod_small by lia. lia.
Qed.

(** The rotation time of day on the local date of [now] is less than 24
    hours away from [now]. *)
Lemma rotation_time_near (h m now : Z) :
  0 <= h <= 23 -> 0 <= m <= 59 ->
  let c := day_start (to_time_t now) + 3600 * h + 60 * m in
  now - hours 24 < c * ticks_per_second < now + hours 24.
Proof.
  intros Hh Hm c. subst c.
  pose proof ticks_positive as Hpos.
  pose proof (to_time_t_bounds now) as [Hlo Hhi].
  pose proof (day_start_bounds (to_time_t now)) as [Hd1 Hd2].
  set (s := to_time_t now) in *. set (d := day_start s) in *.
  unfold hours. split; nia.
Qed.

(** The instant that [next_rotation_tp_] compares with the clock: the
    rotation time of day on the local date of [now]. *)
Lemma rotation_time_of_day (h m now : Z) :
  0 <= h <= 23 -> 0 <= m <= 59 ->
  far_from_the_ends now ->
  from_time_t (mktime (set_hms (now_tm now) h m 0))
  = (day_start (to_time_t now) + 3600 * h + 60 * m) * ticks_per_second.
Proof.
  intros Hh Hm Hnow. unfold from_time_t, now_tm.
  rewrite mktime_same_day by done. fold (day_start (to_time_t now)).
  apply tp_wrap_in_range.
  pose proof (rotation_time_near h m now Hh Hm) as Hnear. cbv zeta in Hnear.
  unfold far_from_the_ends in Hnow. lia.
Qed.

Lemma next_rotation_closed_form (h m now : Z) :
  0 <= h <= 23 -> 0 <= m <= 59 ->
  far_from_the_ends now ->
  let c := day_start (to_time_t now) + 3600 * h + 60 * m in
  next_rotation h m now
  = if c * ticks_per_second >? now then c * ticks_per_second
    else (c + 86400) * ticks_per_second.
Proof.
  intros Hh Hm Hnow c. unfold next_rotation.
  rewrite rotation_time_of_day by done. fold c.
  pose proof (rotation_time_near h m now Hh Hm) as Hnear. cbv zeta in Hnear.
  fold c in Hnear. unfold far_from_the_ends in Hnow.
  destruct (Z.gtb_spec (c * ticks_per_second) now) as [?|Hle]; [done|].
  rewrite tp_wrap_in_range by lia. unfold hours. lia.
Qed.

Lemma next_rotation_bounds (h m now : Z) :
  0 <= h <= 23 -> 0 <= m <= 59 ->
  far_from_the_ends now ->
  now < next_rotation h m now <= now + hours 24.
Proof.
  intros Hh Hm Hnow. rewrite next_rotation_closed_form by done. cbv zeta.
  pose proof (rotation_time_near h m now Hh Hm) as Hnear. cbv zeta in Hnear.
  unfold hours in *.
  destruct (Z.gtb_spec ((day_start (to_time_t now) + 3600 * h + 60 * m)
                        * ticks_per_second) now); lia.
Qed.

Lemma next_rotation_mono (h m now1 now2 : Z) :
  0 <= h <= 23 -> 0 <= m <= 59 ->
  far_from_the_ends now1 -> far_from_the_ends now2 ->
  now1 <= now2 -> next_rotation h m now1 <= next_rotation h m now2.
Proof.
  intros Hh Hm H1 H2 Hle. rewrite !next_rotation_closed_form by done.
  cbv zeta.
  pose proof ticks_positive as Hpos.
  pose proof (day_start_step _ _ (to_time_t_mono _ _ Hle)) as Hstep.
  set (d1 := day_start (to_time_t now1)) in *.
  set (d2 := day_start (to_time_t now2)) in *.
  destruct (Z.gtb_spec ((d1 + 3600 * h + 60 * m) * ticks_per_second) now1);
    destruct (Z.gtb_spec ((d2 + 3600 * h + 60 * m) * ticks_per_second) now2);
    destruct Hstep as [Heq|Hlt]; try rewrite Heq in *; nia.
Qed.

(** [next_rotation] returns the first instant after [now] among those at
    the rotation time of day, which are 24 hours apart. *)
Lemma next_rotation_least (h m now : Z) :
  0 <= h <= 23 -> 0 <= m <= 59 ->
  far_from_the_ends now ->
  exists day,
    next_rotation h m now
    = (86400 * day - utc_offset + 3600 * h + 60 * m) * ticks_per_second
    /\ next_rotation h m now - hours 24 <= now < next_rotation h m now.
Proof.
  intros Hh Hm Hnow. rewrite next_rotation_closed_form by done. cbv zeta.
  pose proof (rotation_time_near h m now Hh Hm) as Hnear. cbv zeta in Hnear.
  rewrite day_start_grid in *.
  set (k := (to_time_t now + utc_offset) / 86400) in *.
  unfold hours in *.
  destruct (Z.gtb_spec ((86400 * k - utc_offset + 3600 * h + 60 * m)
                        * ticks_per_second) now).
  - exists k. split; [done|]. lia.
  - exists (k + 1). split; [f_equal; lia|]. lia.
Qed.

(** Two rotation instants are the same or a whole number of days apart. *)
Lemma next_rotation_days (h m now1 now2 : Z) :
  0 <= h <= 23 -> 0 <= m <= 59 ->
  far_from_the_ends now1 -> far_from_the_ends now2 ->
  now1 <= now2 ->
  (now2 < next_rotation h m now1 ->
   next_rotation h m now2 = next_rotation h m now1)
  /\ (next_rotation h m now1 <= now2 ->
      exists days,
        1 <= days
        /\ next_rotation h m now2 = next_rotation h m now1 + hours (24 * days)
        /\ (days = 1 <-> now2 < next_rotation h m now1 + hours 24)).
Proof.
  intros Hh Hm H1 H2 Hle.
  destruct (next_rotation_least h m now1 Hh Hm H1) as (j1 & E1 & Hlo1 & Hhi1).
  destruct (next_rotation_least h m now2 Hh Hm H2) as (j2 & E2 & Hlo2 & Hhi2).
  pose proof ticks_positive as Hpos.
  rewrite E1, E2 in *. unfold hours in *. split.
  - intros Hlt. assert (j1 = j2) as -> by nia. done.
  - intros Hge. exists (j2 - j1). split_and!; [nia|lia|].
    split; [intros Hone; replace j2 with (j1 + 1) in * by lia; lia|].
    intros Hlt. nia.
Qed.

End RotationClock.

(* ===================================================================== *)
(** ** What a call of the sink does, case by case *)
(* ===================================================================== *)

Ltac run_M :=
  unfold sink_it_, delete_old_, next_rotation_tp_, file_helper_open,
    file_helper_write, log_clock_now, remove_if_exists, os_remove, os_call,
    this, assign, throw_spdlog_ex, cutoff_tp_;
  unfold mbind, mret, M_bind, M_ret; cbn [fst snd].

Section SinkRuns.
Context {P : Platform}.

Lemma sink_it_not_due (msg : log_msg) (s : daily_file_sink) (w : world) :
  time msg < rotation_tp_ s ->
  sink_it_ msg (s, w)
  = let fname := filename_ (file_helper_ s) in
    let w1 := record_event w (EvWrite fname (formatter_ s msg)) in
    if negb (fd_open (file_helper_ s))
    then (Throw (failed_writing_to_file fname), (s, w))
    else if cannot_write w fname
         then (Throw (failed_writing_to_file fname), (s, w1))
         else (Ret tt, (s, append_file fname (formatter_ s msg) w1)).
Proof.
  intros Hlt. run_M.
  destruct (Z.geb_spec (time msg) (rotation_tp_ s)) as [?|_]; [lia|].
  cbn. destruct (negb (fd_open (file_helper_ s))); [done|].
  by destruct (cannot_write w _).
Qed.

Lemma sink_it_due (msg : log_msg) (s : daily_file_sink) (w : world) :
  rotation_tp_ s <= time msg ->
  sink_it_ msg (s, w)
  = let fname := calc_filename (base_filename_ s) (now_tm (time msg)) in
    let formatted := formatter_ s msg in
    let w1 := record_event w (EvOpen fname (truncate_ s)) in
    if cannot_open w fname
    then (Throw (failed_opening_file fname),
          (set_file_helper_ s (mk_file_helper false fname), w1))
    else
      let s2 :=
        set_rotation_tp_ (set_file_helper_ s (mk_file_helper true fname))
          (next_rotation (rotation_h_ s) (rotation_m_ s)
             (clock w (clock_reads w))) in
      let w3 :=
        record_event (advance_clock (create_file fname (truncate_ s) w1))
          (EvWrite fname formatted) in
      if cannot_write w fname
      then (Throw (failed_writing_to_file fname), (s2, w3))
      else
        let w4 := append_file fname formatted w3 in
        if max_files_ s >? 0
        then
          let cutoff :=
            calc_filename (base_filename_ s)
              (now_tm (time msg - hours 24 * max_files_ s)) in
          let w5 := record_event w4 (EvRemove cutoff) in
          if path_exists w4 cutoff
          then if cannot_remove w cutoff
               then (Throw (failed_removing_daily_file cutoff), (s2, w5))
               else (Ret tt, (s2, delete_file cutoff w5))
          else (Throw (failed_removing_daily_file cutoff), (s2, w5))
        else (Ret tt, (s2, w4)).
Proof.
  intros Hle. run_M.
  destruct (Z.geb_spec (time msg) (rotation_tp_ s)) as [_|?]; [|lia].
  cbn. destruct (cannot_open w _); [done|]. cbn.
  destruct (cannot_write w _); [done|]. cbn.
  destruct (max_files_ s >? 0); [|done]. cbn.
  unfold path_exists at 1. cbn.
  match goal with
  | |- context [bool_decide ?X] => destruct (bool_decide X) eqn:E
  end.
  - unfold path_exists. cbn. rewrite E. cbn.
    by destruct (cannot_remove w _).
  - unfold path_exists. cbn. by rewrite E.
Qed.

End SinkRuns.

Section PruneRuns.
Context {P : Platform}.

Lemma delete_old_run (current : Z) (s : daily_file_sink) (w : world) :
  delete_old_ current (s, w)
  = let cutoff :=
      calc_filename (base_filename_ s) (now_tm (cutoff_tp_ s current)) in
    let w1 := record_event w (EvRemove cutoff) in
    if path_exists w cutoff
    then if cannot_remove w cutoff
         then (Throw (failed_removing_daily_file cutoff), (s, w1))
         else (Ret tt, (s, delete_file cutoff w1))
    else (Throw (failed_removing_daily_file cutoff), (s, w1)).
Proof.
  unfold delete_old_, remove_if_exists, os_remove, os_call, this,
    throw_spdlog_ex.
  unfold mbind, mret, M_bind, M_ret. cbn [fst snd].
  unfold path_exists. cbn.
  match goal with
  | |- context [bool_decide ?X] => destruct (bool_decide X) eqn:E
  end; cbn; [|done].
  by destruct (cannot_remove w _).
Qed.

Lemma for_each_prune (folder : filename_t) (obsolete : filename_t -> bool)
    (entries : list filename_t) (s : daily_file_sink) (w : world) :
  for_each entries
    (fun filename =>
       if obsolete filename
       then _ ← os_call (remove_if_exists (folder ++ filename)); mret tt
       else mret tt) (s, w)
  = (Ret tt, (s, foldl (fun w f => prune_entry folder obsolete f w) w entries)).
Proof.
  revert w. induction entries as [|f entries IH]; intros w; [done|].
  cbn [for_each foldl]. unfold mbind, M_bind at 1.
  unfold prune_entry at 2. destruct (obsolete f).
  - unfold mbind, M_bind, os_call, mret, M_ret. cbn [fst snd].
    destruct (remove_if_exists (folder ++ f) w) as [r w']. cbn. apply IH.
  - unfold mret, M_ret at 1. apply IH.
Qed.

Lemma for_each_ext (entries : list filename_t)
    (f g : filename_t -> M unit) (st : daily_file_sink * world) :
  (forall x st', f x st' = g x st') ->
  for_each entries f st = for_each entries g st.
Proof.
  intros Hfg. revert st. induction entries as [|x entries IH]; intros st;
    [done|].
  cbn [for_each]. unfold mbind, M_bind. rewrite Hfg.
  destruct (g x st) as [[[]|e] st']; [apply IH | done].
Qed.

Lemma remove_obsolete_logs_run (s : daily_file_sink) (w : world) :
  remove_obsolete_logs_ (s, w)
  = let folder := obsolete_logs_folder (base_filename_ s) in
    let cutoff_tm := now_tm (cutoff_tp_ s (clock w (clock_reads w))) in
    (Ret tt,
     (s, foldl
           (fun w f =>
              prune_entry folder (is_obsolete (base_filename_ s) cutoff_tm)
                f w)
           (record_event (advance_clock w) (EvIterateDir folder))
           (dir_entries w folder))).
Proof.
  unfold remove_obsolete_logs_, obsolete_logs_folder, is_obsolete.
  unfold this, mbind, M_bind at 1. cbn [fst snd].
  destruct (obsolete_logs_pattern (base_filename_ s))
    as [[[folder basename] prefix] ext].
  unfold log_clock_now, iterate_dir, os_call.
  unfold mbind, M_bind at 1 2. cbn [fst snd].
  rewrite <- for_each_prune. apply for_each_ext. intros x st'.
  destruct (is_daily_log _ prefix ext x); [|done]. cbn.
  by destruct (str_le _ _).
Qed.

End PruneRuns.

Section Construction.
Context {P : Platform}.

Lemma rotation_time_check (h m : Z) :
  (h <? 0) || (h >? 23) || (m <? 0) || (m >? 59) = false
  <-> valid_rotation_time h m.
Proof.
  unfold valid_rotation_time.
  rewrite !orb_false_iff, !Z.ltb_ge, !Z.gtb_ltb, !Z.ltb_ge. lia.
Qed.

Lemma ctor_run (formatter : log_msg -> filename_t) (base : filename_t)
    (h m : Z) (truncate : bool) (max_files : Z) (w : world) :
  valid_rotation_time h m ->
  daily_file_sink_ctor formatter base h m truncate max_files w
  = let fname := calc_filename base (now_tm (clock w (clock_reads w))) in
    let w1 := record_event (advance_clock w) (EvOpen fname truncate) in
    if cannot_open w fname
    then (Throw (failed_opening_file fname), w1)
    else
      let s :=
        mk_sink base h m (next_rotation h m (clock w (S (clock_reads w))))
          (mk_file_helper true fname) truncate max_files formatter in
      let w2 := advance_clock (create_file fname truncate w1) in
      if max_files >? 0
      then (Ret s, (remove_obsolete_logs_ (s, w2)).2.2)
      else (Ret s, w2).
Proof.
  intros Hvalid%rotation_time_check.
  unfold daily_file_sink_ctor, daily_file_sink_body. rewrite Hvalid.
  unfold next_rotation_tp_, file_helper_open, log_clock_now, os_call, this,
    assign.
  unfold mbind, mret, M_bind, M_ret. cbn [fst snd].
  cbn. destruct (cannot_open w _); [done|]. cbn.
  destruct (max_files >? 0); [|done].
  unfold set_rotation_tp_, set_file_helper_. cbn.
  by destruct (remove_obsolete_logs_ _) as [[[]|e] [s' w']] eqn:E;
    rewrite remove_obsolete_logs_run in E; inversion E.
Qed.

Lemma ctor_invalid (formatter : log_msg -> filename_t) (base : filename_t)
    (h m : Z) (truncate : bool) (max_files : Z) (w : world) :
  ~ valid_rotation_time h m ->
  daily_file_sink_ctor formatter base h m truncate max_files w
  = (Throw invalid_rotation_time, w).
Proof.
  intros Hbad. unfold daily_file_sink_ctor, daily_file_sink_body.
  destruct ((h <? 0) || (h >? 23) || (m <? 0) || (m >? 59)) eqn:E; [done|].
  by apply rotation_time_check in E.
Qed.

Lemma ctor_checks_rotation_time (formatter : log_msg -> filename_t)
    (base : filename_t) (h m : Z) (truncate : bool) (max_files : Z)
    (w w' : world) (s : daily_file_sink) :
  daily_file_sink_ctor formatter base h m truncate max_files w = (Ret s, w') ->
  valid_rotation_time h m.
Proof.
  intros Hrun. destruct (decide (valid_rotation_time h m)) as [|Hbad]; [done|].
  by rewrite ctor_invalid in Hrun.
Qed.

End Construction.

(* ===================================================================== *)
(** ** Paths and directory entries *)
(* ===================================================================== *)

Lemma split_at_seps_sep (d rest cur : filename_t) :
  split_at_seps (d ++ "/"%char :: rest) cur
  = split_at_seps d cur ++ split_at_seps rest [].
Proof.
  revert cur. induction d as [|c d IH]; intros cur; [done|].
  cbn [app split_at_seps]. destruct (char_in c folder_seps_filename).
  - by rewrite IH.
  - apply IH.
Qed.

Lemma split_at_seps_name (name cur : filename_t) :
  "/"%char ∉ name -> split_at_seps name cur = [reverse cur ++ name].
Proof.
  revert cur. induction name as [|c name IH]; intros cur Hno.
  - cbn. by rewrite app_nil_r.
  - apply not_elem_of_cons in Hno as [Hc Hname]. cbn [split_at_seps].
    fold (is_sep c). assert (is_sep c = false) as -> by by apply is_sep_false.
    rewrite IH by done. by rewrite reverse_cons, <- app_assoc.
Qed.

Lemma is_absolute_folder (d rest : filename_t) :
  is_absolute ((d ++ lit "/") ++ rest) = is_absolute (d ++ lit "/").
Proof. by destruct d. Qed.

(** The path of an entry of a directory: the directory part of a base
    file name followed by a name without separator. *)
Lemma resolve_entry (dir name : filename_t) :
  (dir = [] \/ exists d, dir = d ++ lit "/") ->
  "/"%char ∉ name -> is_name name = true ->
  resolve (dir ++ name)
  = ((resolve (if bool_decide (dir = []) then lit "." else dir)).1,
     (resolve (if bool_decide (dir = []) then lit "." else dir)).2 ++ [name]).
Proof.
  intros [->|[d ->]] Hno Hname.
  - rewrite bool_decide_eq_true_2 by done.
    change (resolve (lit ".")) with (false, @nil filename_t).
    cbn [app fst snd]. unfold resolve. rewrite split_at_seps_name by done.
    change (reverse [] ++ name) with name.
    rewrite filter_cons_True, filter_nil by done. f_equal.
    destruct name as [|c name]; [done|]. cbn [is_absolute].
    apply not_elem_of_cons in Hno as [Hc _]. fold (is_sep c).
    by apply is_sep_false.
  - rewrite bool_decide_eq_false_2 by by destruct d.
    unfold resolve. rewrite is_absolute_folder. cbn [fst snd]. f_equal.
    rewrite <- !app_assoc. change (lit "/" ++ name) with ("/"%char :: name).
    change (lit "/") with ("/"%char :: []).
    rewrite !split_at_seps_sep, (split_at_seps_name name) by done.
    change (reverse [] ++ name) with name.
    change (split_at_seps [] []) with [@nil ascii].
    rewrite !filter_app.
    rewrite (filter_cons_True _ name), (filter_cons_False _ []) by done.
    by rewrite !filter_nil, app_nil_r.
Qed.

Lemma dir_entries_lookup (w : world) (folder name : filename_t) :
  name ∈ dir_entries w folder
  <-> is_Some (files w !! ((resolve folder).1, (resolve folder).2 ++ [name])).
Proof.
  unfold dir_entries. destruct (resolve folder) as [root dir]. cbn [fst snd].
  rewrite list_elem_of_omap. split.
  - intros ([root' cs] & Hin & Hsome).
    apply elem_of_elements, elem_of_dom in Hin.
    destruct (reverse cs) as [|name' rdir] eqn:Hrev; [done|].
    case_bool_decide as Hd; [|done]. destruct Hd as [-> <-].
    simplify_eq. apply (f_equal reverse) in Hrev.
    rewrite reverse_involutive, reverse_cons in Hrev. by rewrite <- Hrev.
  - intros Hsome. exists (root, dir ++ [name]). split.
    + by apply elem_of_elements, elem_of_dom.
    + rewrite reverse_app. change (reverse [name]) with [name]. cbn [app].
      by rewrite reverse_involutive, bool_decide_eq_true_2.
Qed.

(* ===================================================================== *)
(** ** The structural match and the path of the scan *)
(* ===================================================================== *)

Lemma all_of_date_region (date : filename_t) :
  length date = 10%nat ->
  all_of_date is_separator date = true <-> date_region date.
Proof.
  intros Hlen. unfold date_region.
  do 10 (destruct date as [|? date]; [done|]). destruct date; [|done].
  clear Hlen.
  cbn [all_of_date is_separator negb Z.eqb]. rewrite !andb_true_iff.
  rewrite !char_eqb_true. split.
  - intros H. split; [done|]. intros i c Hi.
    do 10 (destruct i as [|i]; [cbn in Hi |- *; simplify_eq; tauto|]).
    done.
  - intros [_ H].
    pose proof (H 0%nat _ eq_refl). pose proof (H 1%nat _ eq_refl).
    pose proof (H 2%nat _ eq_refl). pose proof (H 3%nat _ eq_refl).
    pose proof (H 4%nat _ eq_refl). pose proof (H 5%nat _ eq_refl).
    pose proof (H 6%nat _ eq_refl). pose proof (H 7%nat _ eq_refl).
    pose proof (H 8%nat _ eq_refl). pose proof (H 9%nat _ eq_refl).
    cbn in *. tauto.
Qed.

(** [hay.rfind(needle)] at the position where a suffix [needle] would
    start. *)
Lemma rfind_suffix_inv (hay needle : filename_t) :
  size hay < npos -> size needle <= size hay ->
  rfind hay needle = size_sub (size hay) (size needle) ->
  exists a, hay = a ++ needle.
Proof.
  intros Hlt Hle. unfold size_sub.
  pose proof (size_nonneg needle).
  rewrite Z.mod_small by (unfold npos in Hlt; lia).
  unfold rfind. rewrite rfind_at_last_match.
  destruct (last_match_spec (starts_with needle) hay 0)
    as [[-> _]|(k & Hk & -> & Hyes & _)]; [lia | lia | lia |].
  intros Hpos. apply starts_with_inv in Hyes as [rest Hrest].
  assert (Hlen : length (drop k hay) = length (needle ++ rest))
    by by rewrite Hrest.
  rewrite length_drop, length_app in Hlen. unfold size in Hpos.
  assert (rest = []) as -> by (apply length_zero_iff_nil; lia).
  exists (take k hay). rewrite app_nil_r in Hrest.
  by rewrite <- Hrest, take_drop.
Qed.

(** The structural match of section 4.3, for the prefix and extension
    that [remove_obsolete_logs_] computes from a base name [stem ++ ext]. *)
Lemma is_daily_log_structure (stem ext filename : filename_t) :
  size (stem ++ ext) + suffix_size < npos ->
  is_daily_log (size (stem ++ ext) + suffix_size) (stem ++ lit "_") ext
    filename = true
  <-> exists date,
        filename = (stem ++ lit "_") ++ date ++ ext /\ date_region date.
Proof.
  intros Hfit. assert (Hsuffix : suffix_size = 11) by done.
  pose proof (size_nonneg stem) as Hstem0.
  pose proof (size_nonneg ext) as Hext0.
  rewrite size_app in Hfit. split.
  - unfold is_daily_log. intros H.
    destruct (_ && _) eqn:Hcond in H; [|done].
    apply andb_true_iff in Hcond as [Hcond Hrfind].
    apply andb_true_iff in Hcond as [Hsize Hfind].
    apply Z.eqb_eq in Hsize, Hfind, Hrfind. rewrite size_app in Hsize.
    apply find_zero, starts_with_inv in Hfind as [rest ->].
    apply rfind_suffix_inv in Hrfind as [a Ha]; [|lia..].
    rewrite size_app in Hsize, H.
    assert (Hrest : size rest = 10 + size ext).
    { rewrite size_app in Hsize. change (size (lit "_")) with 1 in Hsize.
      lia. }
    rewrite drop_app_length' in H by (unfold size; lia).
    exists (take 10 rest).
    assert (Hla : length a = (length (stem ++ lit "_") + 10)%nat).
    { apply (f_equal length) in Ha. rewrite !length_app in Ha.
      unfold size in Hrest. rewrite length_app. lia. }
    assert (Hext : drop 10 rest = ext).
    { apply (f_equal (drop (length (stem ++ lit "_") + 10))) in Ha.
      rewrite drop_app_ge in Ha by lia.
      replace (length (stem ++ lit "_") + 10 - length (stem ++ lit "_"))%nat
        with 10%nat in Ha by lia.
      by rewrite <- Hla, drop_app_length in Ha. }
    split.
    + f_equal. rewrite <- Hext. by rewrite take_drop.
    + apply all_of_date_region; [rewrite length_take; unfold size in *; lia|].
      replace (Z.to_nat (size (stem ++ lit "_") + size rest - size ext
                         - size (stem ++ lit "_"))) with 10%nat in H by lia.
      done.
  - intros (date & -> & Hregion). pose proof Hregion as [Hlen _].
    apply all_of_date_region in Hregion; [|done].
    set (entry := (stem ++ lit "_") ++ date ++ ext).
    assert (E1 : size entry = size (stem ++ ext) + suffix_size).
    { unfold entry. rewrite !size_app. unfold size, suffix_size.
      rewrite Hlen. simpl. lia. }
    unfold is_daily_log.
    assert (E2 : find entry (stem ++ lit "_") = 0)
      by apply find_zero, starts_with_app.
    assert (E3 : rfind entry ext = size_sub (size entry) (size ext)).
    { assert (Hfit' : size ((stem ++ lit "_") ++ date) + size ext < npos).
      { rewrite <- size_app, <- app_assoc. fold entry.
        rewrite E1, size_app. lia. }
      pose proof (size_nonneg ((stem ++ lit "_") ++ date)). unfold entry.
      rewrite (app_assoc _ date ext), rfind_suffix by (rewrite size_app; lia).
      rewrite (size_app ((stem ++ lit "_") ++ date) ext).
      unfold size_sub. rewrite Z.add_simpl_r.
      rewrite Z.mod_small; [done|]. unfold npos in Hfit'. lia. }
    rewrite E3, E2, E1, !Z.eqb_refl. simpl andb. cbv iota. unfold entry.
    rewrite drop_app_length'; [|unfold size; lia].
    rewrite take_app_length'; [done|].
    rewrite !size_app. unfold size. simpl. lia.
Qed.

(** The path that [remove_obsolete_logs_] hands to [remove_if_exists] for
    an entry [filename] of the folder it scans. When the base file name has
    a directory, the path names the entry. When it has none, the folder is
    ["."], the path is a dot followed by the entry name, and it names
    another file. *)
Lemma bulk_prune_path (base filename : filename_t) :
  size base < npos ->
  "/"%char ∉ filename -> is_name filename = true ->
  let folder := obsolete_logs_folder base in
  let entry_id := ((resolve folder).1, (resolve folder).2 ++ [filename]) in
  ("/"%char ∈ base -> resolve (folder ++ filename) = entry_id)
  /\ ("/"%char ∉ base ->
      folder = lit "." /\ resolve (folder ++ filename) <> entry_id).
Proof.
  intros Hlt Hno Hname folder entry_id. subst folder entry_id.
  unfold obsolete_logs_folder.
  destruct (obsolete_logs_pattern_spec base Hlt)
    as (dir & basename & -> & Hnosep & Hdir & ->).
  cbn [fst]. split.
  - intros Hin. destruct Hdir as [->|[d ->]].
    + by destruct Hnosep.
    + rewrite bool_decide_eq_false_2 by by destruct d.
      rewrite (resolve_entry (d ++ lit "/") filename); [|by right; exists d|done..].
      by rewrite bool_decide_eq_false_2 by by destruct d.
  - intros Hout. destruct Hdir as [->|[d ->]].
    + rewrite bool_decide_eq_true_2 by done. split; [done|].
      change (resolve (lit ".")) with (false, @nil filename_t).
      cbn [fst snd app]. unfold resolve.
      rewrite split_at_seps_name by by apply not_elem_of_cons.
      intros Heq. apply (f_equal snd) in Heq. cbn [snd] in Heq.
      change (reverse [] ++ lit "." ++ filename)
        with ("."%char :: filename) in Heq.
      destruct (is_name ("."%char :: filename)) eqn:E.
      * rewrite filter_cons_True, filter_nil in Heq by done.
        apply (f_equal (fmap length)) in Heq. simpl in Heq.
        injection Heq. lia.
      * by rewrite filter_cons_False, filter_nil in Heq by congruence.
    + exfalso. apply Hout. rewrite !elem_of_app. left. right. by left.
Qed.

(** The scan does not check that the date is one of the calendar. *)
Example day_32_is_a_daily_log :
  is_daily_log (size (lit "app.log") + suffix_size) (lit "app_") (lit ".log")
    (lit "app_2024-01-32.log") = true.
Proof. reflexivity. Qed.

(* ===================================================================== *)
(** ** File names *)
(* ===================================================================== *)



Lemma all_of_date_no_sep (itr : list Z) (date : filename_t) :
  all_of_date itr date = true -> "/"%char ∉ date.
Proof.
  revert itr. induction date as [|c date IH]; intros itr H.
  - apply not_elem_of_nil.
  - destruct itr as [|flag itr]; [done|]. cbn [all_of_date] in H.
    apply andb_true_iff in H as [Hc Hrest].
    apply not_elem_of_cons. split; [|by eapply IH].
    intros <-. by destruct (negb (flag =? 0)).
Qed.



(* ===================================================================== *)
(** ** Rotation, retention and construction *)
(* ===================================================================== *)

Section Claims.
Context {P : Platform}.


(** C9. Construction with an hour outside [0,23] or a minute outside
    [0,59] throws the "Invalid rotation time" exception and leaves the world
    as it was: no file is opened, nothing is written or removed. An object
    that is constructed holds the hour and minute it was given, which are in
    range: nothing is clamped. *)
Theorem ctor_rejects_invalid_rotation_time
    (formatter : log_msg -> filename_t) (base : filename_t)
    (h m : Z) (truncate : bool) (max_files : Z) (w : world) :
  ((h < 0 \/ 23 < h \/ m < 0 \/ 59 < m) ->
   daily_file_sink_ctor formatter base h m truncate max_files w
   = (Throw invalid_rotation_time, w))
  /\ (forall s w',
        daily_file_sink_ctor formatter base h m truncate max_files w
        = (Ret s, w') ->
        valid_rotation_time h m /\ rotation_h_ s = h /\ rotation_m_ s = m).
Proof.
  split.
  - intros Hbad. apply ctor_invalid. unfold valid_rotation_time. lia.
  - intros s w' Hrun.
    pose proof (ctor_checks_rotation_time _ _ _ _ _ _ _ _ _ Hrun) as Hvalid.
    split; [done|]. rewrite ctor_run in Hrun by done. cbv zeta in Hrun.
    destruct (cannot_open w _); [done|].
    by destruct (max_files >? 0); inversion Hrun.
Qed.

(** C1. A call of [sink_it_] opens a file, that is, rotates, exactly when
    the time of the record is at or after the stored rotation instant. A
    record at the instant itself rotates into the file named after the
    record's date. A record before the instant leaves the object as it was
    and, when the file is open and writable, appends to that same file. *)
Theorem sink_it_rotates_iff_due (msg : log_msg) (s s' : daily_file_sink)
    (w w' : world) (r : outcome unit) :
  sink_it_ msg (s, w) = (r, (s', w')) ->
  exists evs,
    trace w' = trace w ++ evs
    /\ ((exists fname truncate, EvOpen fname truncate ∈ evs)
        <-> rotation_tp_ s <= time msg)
    /\ (rotation_tp_ s <= time msg ->
        head evs
        = Some (EvOpen (calc_filename (base_filename_ s) (now_tm (time msg)))
                  (truncate_ s)))
    /\ (time msg < rotation_tp_ s ->
        s' = s
        /\ (fd_open (file_helper_ s) = true ->
            cannot_write w (filename_ (file_helper_ s)) = false ->
            r = Ret tt
            /\ evs = [EvWrite (filename_ (file_helper_ s)) (formatter_ s msg)]
            /\ w' = append_file (filename_ (file_helper_ s))
                      (formatter_ s msg)
                      (record_event w
                         (EvWrite (filename_ (file_helper_ s))
                            (formatter_ s msg))))).
Proof.
  intros Hrun.
  destruct (Z.le_gt_cases (rotation_tp_ s) (time msg)) as [Hdue|Hearly].
  - rewrite sink_it_due in Hrun by done. cbv zeta in Hrun.
    repeat case_match; simplify_eq;
      (eexists; split; [cbn; rewrite <- ?app_assoc; reflexivity|]);
      (split_and!; [|done|lia]);
      (split; [done|]); intros _; eexists _, _; by left.
  - rewrite sink_it_not_due in Hrun by done. cbv zeta in Hrun.
    assert (Hwrite : forall e : event,
      (forall f b, e <> EvOpen f b) ->
      (exists f b, EvOpen f b ∈ [e]) <-> rotation_tp_ s <= time msg).
    { intros e He. split; [|lia]. intros (f & b & Hin).
      apply list_elem_of_singleton in Hin. by destruct (He f b). }
    repeat case_match; simplify_eq.
    + exists []. rewrite app_nil_r. split_and!; [done| |lia|].
      * split; [|lia]. intros (f & b & Hin). by apply elem_of_nil in Hin.
      * intros _. split; [done|]. intros Hfd. by rewrite Hfd in *.
    + eexists. split; [reflexivity|]. split_and!; [by apply Hwrite|lia|].
      intros _. split; [done|]. intros _ Hw. congruence.
    + eexists. split; [reflexivity|]. split_and!; [by apply Hwrite|lia|].
      intros _. split; [done|]. by intros _ _.
Qed.



Lemma path_exists_lookup (w : world) (path : filename_t) :
  path_exists w path = false -> files w !! resolve path = None.
Proof.
  unfold path_exists. intros H%bool_decide_eq_false.
  by apply eq_None_not_Some.
Qed.

Lemma appended_lookup (fname buf : filename_t) (truncate : bool)
    (files : gmap file_id filename_t) :
  exists old,
    alter (fun old => old ++ buf) (resolve fname)
      (<[resolve fname :=
           if truncate then [] else default [] (files !! resolve fname)]>
         files)
    !! resolve fname = Some (old ++ buf).
Proof. eexists. by rewrite lookup_alter_eq, lookup_insert_eq. Qed.

Lemma no_new_events (l evs : list event) : l = l ++ evs -> evs = [].
Proof. intros H. apply (app_inv_head l). by rewrite app_nil_r. Qed.

(** C6. When a call of [sink_it_] asks for the removal of a file, it has
    opened the file of the record's date and written the record to it
    first, in that order. When the call throws "Failed removing daily
    file", the new file holds the formatted record at its end. *)
Theorem retention_error_after_write (msg : log_msg) (s s' : daily_file_sink)
    (w w' : world) (r : outcome unit) :
  sink_it_ msg (s, w) = (r, (s', w')) ->
  let fname := calc_filename (base_filename_ s) (now_tm (time msg)) in
  let formatted := formatter_ s msg in
  (forall path evs,
     trace w' = trace w ++ evs -> EvRemove path ∈ evs ->
     evs = [EvOpen fname (truncate_ s); EvWrite fname formatted;
            EvRemove path])
  /\ (forall path,
        r = Throw (failed_removing_daily_file path) ->
        trace w'
        = trace w ++ [EvOpen fname (truncate_ s); EvWrite fname formatted;
                      EvRemove path]
        /\ exists old, files w' !! resolve fname = Some (old ++ formatted)).
Proof.
  intros Hrun fname formatted.
  destruct (Z.le_gt_cases (rotation_tp_ s) (time msg)) as [Hdue|Hearly].
  - rewrite sink_it_due in Hrun by done. cbv zeta in Hrun.
    fold fname formatted in Hrun.
    repeat case_match; simplify_eq; cbn; rewrite <- ?app_assoc; cbn.
    all: split;
      [ intros path evs <-%app_inv_head Hin;
        repeat (apply elem_of_cons in Hin as [Hin|Hin]; [by simplify_eq|]);
        by apply elem_of_nil in Hin
      | intros path Hr; simplify_eq ].
    all: split; [done|]; apply appended_lookup.
  - rewrite sink_it_not_due in Hrun by done. cbv zeta in Hrun.
    repeat case_match; simplify_eq; cbn.
    all: split;
      [ intros path evs Htrace Hin;
        first [ apply no_new_events in Htrace as ->
              | apply app_inv_head in Htrace as <- ];
        repeat (apply elem_of_cons in Hin as [Hin|Hin]; [by simplify_eq|]);
        by apply elem_of_nil in Hin
      | by intros path Hr ].
Qed.


Lemma prune_entries_outcome (s : daily_file_sink) (w : world) :
  (remove_obsolete_logs_ (s, w)).1 = Ret tt.
Proof. by rewrite remove_obsolete_logs_run. Qed.

(** C7. [delete_old_], the removal after a rotation, throws "Failed
    removing daily file" for every failure of the removal, that of a file
    that does not exist as that of a file that cannot be removed; it
    returns only when the file was there and has been removed. A call of
    [sink_it_] that rotates with a retention limit throws this error in
    the same cases, once it has opened and written the file of the day.
    [remove_obsolete_logs_], the scan at construction, never throws,
    although the removal of a path that does not exist fails there as
    well. *)
Theorem pruning_failure_policy (current : Z) (msg : log_msg)
    (s : daily_file_sink) (w : world) :
  let cutoff :=
    calc_filename (base_filename_ s) (now_tm (cutoff_tp_ s current)) in
  let fname := calc_filename (base_filename_ s) (now_tm (time msg)) in
  let target :=
    calc_filename (base_filename_ s) (now_tm (cutoff_tp_ s (time msg))) in
  (delete_old_ current (s, w)).1
  = (if path_exists w cutoff && negb (cannot_remove w cutoff)
     then Ret tt
     else Throw (failed_removing_daily_file cutoff))
  /\ (rotation_tp_ s <= time msg -> 0 < max_files_ s ->
      cannot_open w fname = false -> cannot_write w fname = false ->
      resolve target <> resolve fname ->
      (sink_it_ msg (s, w)).1
      = (if path_exists w target && negb (cannot_remove w target)
         then Ret tt
         else Throw (failed_removing_daily_file target)))
  /\ (forall path,
        path_exists w path = false -> (remove_if_exists path w).1 <> 0)
  /\ (remove_obsolete_logs_ (s, w)).1 = Ret tt.
Proof.
  intros cutoff fname target. split_and!.
  - rewrite delete_old_run. cbv zeta. fold cutoff.
    destruct (path_exists w cutoff); [|done].
    by destruct (cannot_remove w cutoff).
  - intros Hdue Hmax Hopen Hwrite Hne.
    rewrite sink_it_due by done. cbv zeta. fold fname.
    rewrite Hopen, Hwrite.
    destruct (Z.gtb_spec (max_files_ s) 0) as [_|?]; [|lia].
    change (calc_filename (base_filename_ s)
              (now_tm (time msg - hours 24 * max_files_ s))) with target.
    assert (Hsame : forall w0,
              files w0
              = alter (fun old => old ++ formatter_ s msg) (resolve fname)
                  (<[resolve fname :=
                       if truncate_ s then []
                       else default [] (files w !! resolve fname)]>
                     (files w)) ->
              path_exists w0 target = path_exists w target).
    { intros w0 E. unfold path_exists.
      by rewrite E, lookup_alter_ne, lookup_insert_ne by done. }
    rewrite Hsame by done.
    destruct (path_exists w target); [|done].
    by destruct (cannot_remove w target).
  - intros path Hmissing. unfold remove_if_exists, os_remove.
    replace (path_exists (record_event w (EvRemove path)) path) with false.
    done.
  - apply prune_entries_outcome.
Qed.

End Claims.

Section ClockClaims.
Context {P : Platform} {utc_offset : Z} {zone : FixedOffsetZone P utc_offset}.

(** C2 (amended). In a zone at a fixed offset from UTC, for a valid
    rotation time and for a time [now] at least 24 hours from the ends of
    the range of time points, [next_rotation] returns the instant at the
    rotation hour and minute, second 0, of the local date of [now] when
    that instant is after [now], and that instant plus exactly 24 hours
    otherwise; the result is after [now], and not more than 24 hours
    after it. *)
Theorem next_rotation_after_now (rotation_h rotation_m now : Z) :
  valid_rotation_time rotation_h rotation_m ->
  far_from_the_ends now ->
  let candidate :=
    from_time_t (mktime (set_hms (now_tm now) rotation_h rotation_m 0)) in
  next_rotation rotation_h rotation_m now
  = (if candidate >? now then candidate else candidate + hours 24)
  /\ candidate
     = (day_start utc_offset (to_time_t now)
        + 3600 * rotation_h + 60 * rotation_m) * ticks_per_second
  /\ hours 24 = 86400 * ticks_per_second
  /\ now < next_rotation rotation_h rotation_m now <= now + hours 24.
Proof.
  intros [Hh Hm] Hnow candidate.
  assert (Hc : candidate
               = (day_start utc_offset (to_time_t now)
                  + 3600 * rotation_h + 60 * rotation_m) * ticks_per_second)
    by (by apply rotation_time_of_day).
  split; [|split; [|split]].
  - rewrite next_rotation_closed_form by done. cbv zeta. rewrite Hc.
    unfold hours.
    by destruct (_ >? now); [|lia].
  - done.
  - unfold hours. lia.
  - by apply next_rotation_bounds.
Qed.

Lemma prune_entry_clock (folder : filename_t) (obsolete : filename_t -> bool)
    (entries : list filename_t) (w : world) :
  let w' := foldl (fun w f => prune_entry folder obsolete f w) w entries in
  clock w' = clock w /\ clock_reads w' = clock_reads w.
Proof.
  revert w. induction entries as [|f entries IH]; intros w; [done|].
  cbn [foldl]. destruct (IH (prune_entry folder obsolete f w)) as [-> ->].
  unfold prune_entry, remove_if_exists, os_remove.
  by repeat case_match.
Qed.

Lemma ctor_rotation_tp
    (formatter : log_msg -> filename_t) (base : filename_t)
    (h m : Z) (truncate : bool) (max_files : Z) (w w' : world)
    (s : daily_file_sink) :
  daily_file_sink_ctor formatter base h m truncate max_files w = (Ret s, w') ->
  clock w' = clock w
  /\ (clock_reads w + 2 <= clock_reads w')%nat
  /\ rotation_h_ s = h /\ rotation_m_ s = m
  /\ valid_rotation_time h m
  /\ rotation_tp_ s = next_rotation h m (clock w (S (clock_reads w))).
Proof.
  intros Hrun.
  pose proof (ctor_checks_rotation_time _ _ _ _ _ _ _ _ _ Hrun) as Hv.
  rewrite ctor_run in Hrun by done. cbv zeta in Hrun.
  destruct (cannot_open w _); [done|].
  destruct (max_files >? 0); simplify_eq; cbn; [|by split_and!; try lia].
  rewrite remove_obsolete_logs_run. cbn [snd].
  match goal with
  | |- context [foldl ?f ?w0 ?l] =>
      destruct (prune_entry_clock
                  (obsolete_logs_folder base)
                  (is_obsolete base
                     (now_tm (cutoff_tp_
                        (mk_sink base h m
                           (next_rotation h m (clock w (S (clock_reads w))))
                           (mk_file_helper true
                              (calc_filename base
                                 (now_tm (clock w (clock_reads w)))))
                           truncate max_files formatter)
                        (clock w (S (S (clock_reads w)))))))
                  l w0) as [Ec Er]
  end.
  cbn in Ec, Er. cbn. rewrite Ec, Er. split_and!; try done; lia.
Qed.

Lemma sink_it_clock (msg : log_msg) (s s' : daily_file_sink) (w w' : world)
    (r : outcome unit) :
  sink_it_ msg (s, w) = (r, (s', w')) ->
  clock w' = clock w
  /\ (clock_reads w <= clock_reads w')%nat
  /\ rotation_h_ s' = rotation_h_ s /\ rotation_m_ s' = rotation_m_ s
  /\ (rotation_tp_ s' = rotation_tp_ s
      \/ (rotation_tp_ s <= time msg
          /\ (clock_reads w < clock_reads w')%nat
          /\ rotation_tp_ s'
             = next_rotation (rotation_h_ s) (rotation_m_ s)
                 (clock w (clock_reads w))))
  /\ (time msg < rotation_tp_ s -> rotation_tp_ s' = rotation_tp_ s)
  /\ (rotation_tp_ s <= time msg ->
      (forall fname, r <> Throw (failed_opening_file fname)) ->
      rotation_tp_ s'
      = next_rotation (rotation_h_ s) (rotation_m_ s)
          (clock w (clock_reads w))).
Proof.
  intros Hrun.
  destruct (Z.le_gt_cases (rotation_tp_ s) (time msg)) as [Hdue|Hearly].
  - rewrite sink_it_due in Hrun by done. cbv zeta in Hrun.
    repeat case_match; simplify_eq; cbn;
      (split_and!; [done | lia | done | done | | lia | ]);
      try (right; split_and!; [done | lia | done]);
      try (by left); try done.
    intros _ Hno. exfalso. by eapply Hno.
  - rewrite sink_it_not_due in Hrun by done. cbv zeta in Hrun.
    repeat case_match; simplify_eq; cbn;
      (split_and!; [done | lia | done | done | by left | done | lia ]).
Qed.

Lemma reachable_rotation_tp (s : daily_file_sink) (w : world) :
  reachable s w -> rotation_tp_from_clock s w.
Proof.
  unfold rotation_tp_from_clock.
  induction 1 as [formatter base h m truncate max_files w s w' Hctor
                 |msg s w r s' w' Hreach IH Hrun
                 |s w w' Hreach IH Hclock Hreads].
  - apply ctor_rotation_tp in Hctor as (Hc & Hr & Eh & Em & Hv & Etp).
    rewrite Eh, Em, Etp, Hc. split; [done|].
    exists (S (clock_reads w)). split; [lia|done].
  - destruct IH as [Hv (k & Hk & Htp)].
    apply sink_it_clock in Hrun
      as (Hc & Hr & Eh & Em & [Hsame|(_ & Hlt & Hnew)] & _);
      rewrite Eh, Em, Hc; (split; [done|]).
    + exists k. rewrite Hsame. split; [lia|done].
    + by exists (clock_reads w).
  - destruct IH as [Hv (k & Hk & Htp)].
    split; [done|]. exists k. by rewrite Hclock, Hreads.
Qed.

(** C10 (amended). In a zone at a fixed offset from UTC, with a clock
    that never runs backwards and whose readings are at least 24 hours
    from the ends of the range of time points: the rotation instant that
    an object holds was computed by [next_rotation] from a reading of the
    clock, at construction or at the last rotation. A call of [sink_it_]
    never moves it back; a record before the instant leaves it as it is; a
    rotation that opens its file stores [next_rotation] of the clock
    reading made then, which does not depend on the time of the record, is
    after that reading and is not more than 24 hours after it. Against
    the instant held before, the new one is the same when the clock has
    not reached the old one, and later by a whole number of days
    otherwise: by 24 hours exactly when the clock is less than 24 hours
    past the old instant. *)
Theorem rotation_instant_follows_wall_clock (msg : log_msg)
    (s s' : daily_file_sink) (w w' : world) (r : outcome unit) :
  reachable s w ->
  monotone_clock w ->
  clock_in_range w ->
  sink_it_ msg (s, w) = (r, (s', w')) ->
  let now := clock w (clock_reads w) in
  rotation_tp_from_clock s w
  /\ rotation_tp_ s <= rotation_tp_ s'
  /\ (time msg < rotation_tp_ s -> rotation_tp_ s' = rotation_tp_ s)
  /\ (rotation_tp_ s <= time msg ->
      (forall fname, r <> Throw (failed_opening_file fname)) ->
      rotation_tp_ s' = next_rotation (rotation_h_ s) (rotation_m_ s) now
      /\ now < rotation_tp_ s' <= now + hours 24
      /\ (now < rotation_tp_ s -> rotation_tp_ s' = rotation_tp_ s)
      /\ (rotation_tp_ s <= now ->
          exists days,
            1 <= days
            /\ rotation_tp_ s' = rotation_tp_ s + hours (24 * days)
            /\ (days = 1 <-> now < rotation_tp_ s + hours 24))).
Proof.
  intros Hreach Hmono Hrange Hrun now.
  pose proof (reachable_rotation_tp _ _ Hreach) as Hinv.
  split; [done|]. destruct Hinv as [[Hh Hm] (k & Hk & Htp)].
  apply sink_it_clock in Hrun
    as (_ & _ & _ & _ & Hcases & Hearly & Hdue).
  assert (Hle : clock w k <= now) by (apply Hmono; lia).
  split_and!; [|done|].
  - destruct Hcases as [->|(_ & _ & ->)]; [lia|]. rewrite Htp.
    apply next_rotation_mono; [done..|apply Hrange|apply Hrange|done].
  - intros Hrot Hopen. rewrite (Hdue Hrot Hopen).
    destruct (next_rotation_days (zone := zone) (rotation_h_ s)
                (rotation_m_ s) (clock w k) now Hh Hm (Hrange k)
                (Hrange (clock_reads w)) Hle) as [Hsame Hlater].
    rewrite <- Htp in Hsame, Hlater.
    split; [done|].
    split; [apply next_rotation_bounds; [done..|apply Hrange]|]. by split.
Qed.

End ClockClaims.

(* ===================================================================== *)
(** ** Runs of the sink in January 2024 *)
(* ===================================================================== *)

Section Runs.
#[local] Existing Instance Utc.platform.

(** C3: a run with a limit of two files and no record on the 3rd, in a
    folder that holds the log of December 31st. Every call returns. The
    rotation of the 2nd removes the file of December 31st; the rotation
    of the 4th removes the file of the 2nd and no other one. The file of
    the 1st passes the test of the scan (it matches the pattern, and its
    date is not after the cutoff date), and it is still there. *)
Theorem older_owned_file_survives :
  match Cases.silent_day_in_use with
  | Some (outcomes, (s, w)) =>
      outcomes = [Ret tt; Ret tt; Ret tt]
      /\ List.filter is_removal (trace w)
         = [EvRemove (lit "logs/app_2023-12-31.log");
            EvRemove (lit "logs/app_2024-01-02.log")]
      /\ max_files_ s = 2
      /\ is_obsolete (base_filename_ s)
           (now_tm (cutoff_tp_ s (Scenario.noon 4)))
           (lit "app_2024-01-01.log") = true
      /\ path_exists w (lit "logs/app_2024-01-01.log") = true
      /\ path_exists w (lit "logs/app_2024-01-04.log") = true
  | None => False
  end.
Proof. vm_compute. by split_and!. Qed.

(** C10, as stated, fails. After the rotation of the 2nd the stored
    instant is midnight before the 3rd; nothing is logged on the 3rd, and
    the rotation of the 4th moves the instant to midnight before the 5th:
    48 hours, not 24. *)
Lemma rotation_instant_skips_a_day :
  match Scenario.silent_day 2, Scenario.silent_day 3 with
  | Some (_, (s2, _)), Some (_, (s3, _)) =>
      rotation_tp_ s2 = Scenario.midnight 3
      /\ rotation_tp_ s3 = Scenario.midnight 5
      /\ rotation_tp_ s3 = rotation_tp_ s2 + 2 * hours 24
  | _, _ => False
  end.
Proof. vm_compute. by split_and!. Qed.

(** C2, as stated, fails. For the rotation time 00:00 and a time [now]
    at noon, less than 24 hours before the last time point, the instant
    of the same day is not after [now], the sum with 24 hours leaves the
    range and wraps around, and the result is before [now]. *)
Lemma next_rotation_wraps_around :
  let now := 9223329600000000000 in
  valid_rotation_time 0 0
  /\ tp_min <= now <= tp_max
  /\ from_time_t (mktime (set_hms (now_tm now) 0 0 0))
     = 9223286400000000000
  /\ next_rotation 0 0 now = -9223371273709551616
  /\ next_rotation 0 0 now < now.
Proof. vm_compute. by split_and!. Qed.

(** C4: the scan at construction for the base name [app.log]. The entry
    [app_2020-01-01.log] of the working directory passes the test of the
    scan, the removal is asked for the path [.app_2020-01-01.log], and the
    entry is still there afterwards. With the base name [logs/app.log] the
    same entry of [logs] is removed. *)
Theorem bulk_prune_misses_working_directory :
  match Scenario.no_folder, Scenario.in_folder with
  | (Ret s, w), (Ret s', w') =>
      obsolete_logs_folder (base_filename_ s) = lit "."
      /\ is_obsolete (base_filename_ s)
           (now_tm (cutoff_tp_ s (Scenario.noon 1)))
           (lit "app_2020-01-01.log") = true
      /\ trace w
         = [EvOpen (lit "app_2024-01-01.log") false; EvIterateDir (lit ".");
            EvRemove (lit ".app_2020-01-01.log")]
      /\ path_exists w (lit "app_2020-01-01.log") = true
      /\ trace w'
         = [EvOpen (lit "logs/app_2024-01-01.log") false;
            EvIterateDir (lit "logs/");
            EvRemove (lit "logs/app_2020-01-01.log")]
      /\ path_exists w' (lit "logs/app_2020-01-01.log") = false
      /\ path_exists w' (lit "logs/notes.txt") = true
  | _, _ => False
  end.
Proof. vm_compute. by split_and!. Qed.

(** The first scenario of section 8: the record before midnight goes to
    the file of the 1st, the record after midnight rotates to the file of
    the 2nd, and without a retention limit the file of the 1st stays. *)
Example across_midnight_run :
  match Scenario.across_midnight with
  | Some (outcomes, (s, w)) =>
      outcomes = [Ret tt; Ret tt]
      /\ trace w
         = [EvOpen (lit "app_2024-01-01.log") false;
            EvWrite (lit "app_2024-01-01.log") (lit "x;");
            EvOpen (lit "app_2024-01-02.log") false;
            EvWrite (lit "app_2024-01-02.log") (lit "y;")]
      /\ files w !! resolve (lit "app_2024-01-01.log") = Some (lit "x;")
      /\ files w !! resolve (lit "app_2024-01-02.log") = Some (lit "y;")
      /\ rotation_tp_ s = Scenario.midnight 3
  | None => False
  end.
Proof. vm_compute. by split_and!. Qed.

(** The second scenario of section 8: the rotation into the 3rd removes
    the file of the 1st and leaves those of the 2nd and the 3rd. Before
    that, the rotation into the 2nd has found no file of December 31st
    to remove, which is a failure of the removal. *)
Example three_days_run :
  match Scenario.three_days with
  | Some (outcomes, (s, w)) =>
      outcomes
      = [Ret tt;
         Throw (failed_removing_daily_file (lit "app_2023-12-31.log"));
         Ret tt]
      /\ last (trace w) = Some (EvRemove (lit "app_2024-01-01.log"))
      /\ path_exists w (lit "app_2024-01-01.log") = false
      /\ files w !! resolve (lit "app_2024-01-02.log") = Some (lit "b;")
      /\ files w !! resolve (lit "app_2024-01-03.log") = Some (lit "c;")
  | None => False
  end.
Proof. vm_compute. by split_and!. Qed.

Lemma ctor_rejects_invalid_rotation_time_witness :
  daily_file_sink_ctor Scenario.formatter (lit "app.log") 24 0 false 0
    (Scenario.world_of [] (fun _ => Scenario.noon 1))
  = (Throw invalid_rotation_time,
     Scenario.world_of [] (fun _ => Scenario.noon 1))
  /\ daily_file_sink_ctor Scenario.formatter (lit "app.log") 0 60 false 0
       (Scenario.world_of [] (fun _ => Scenario.noon 1))
     = (Throw invalid_rotation_time,
        Scenario.world_of [] (fun _ => Scenario.noon 1)).
Proof.
  split.
  - apply (ctor_rejects_invalid_rotation_time Scenario.formatter
             (lit "app.log") 24 0 false 0). lia.
  - apply (ctor_rejects_invalid_rotation_time Scenario.formatter
             (lit "app.log") 0 60 false 0). lia.
Defined.



Lemma run_parts {A B C : Type} (x : A * (B * C)) (a : A) :
  x.1 = a -> x = (a, (x.2.1, x.2.2)).
Proof. destruct x as [? [? ?]]. cbn. by intros <-. Qed.

Lemma ctor_parts {A B : Type} (x : A * B) (a : A) : x.1 = a -> x = (a, x.2).
Proof. destruct x. cbn. by intros <-. Qed.

Lemma constructed_sink0 :
  Scenario.constructed = (Ret Scenario.sink0, Scenario.constructed.2).
Proof. apply ctor_parts. vm_compute. reflexivity. Qed.

Lemma silent_day_clock_monotone (w : world) :
  clock w = Scenario.silent_day_clock -> monotone_clock w.
Proof.
  intros Hc i j Hij. rewrite Hc.
  assert (Hnoon : Scenario.noon 1 <= Scenario.noon 2 <= Scenario.noon 4)
    by by vm_compute.
  unfold Scenario.silent_day_clock.
  do 4 (destruct i as [|i]; [do 4 (destruct j as [|j]; [lia|]); lia|]).
  do 4 (destruct j as [|j]; [lia|]). lia.
Qed.

Lemma silent_day_clock_in_range (w : world) :
  clock w = Scenario.silent_day_clock -> clock_in_range w.
Proof.
  intros Hc i. rewrite Hc. unfold Scenario.silent_day_clock.
  do 4 (destruct i as [|i]; [by vm_compute|]). by vm_compute.
Qed.

Lemma sink_it_rotates_iff_due_witness :
  let run := sink_it_ Scenario.at_the_instant
               (Scenario.sink0, Scenario.constructed.2) in
  exists evs,
    trace run.2.2 = trace Scenario.constructed.2 ++ evs
    /\ head evs = Some (EvOpen (lit "logs/app_2024-01-02.log") false).
Proof.
  intros run.
  destruct (sink_it_rotates_iff_due Scenario.at_the_instant
              Scenario.sink0 run.2.1 Scenario.constructed.2 run.2.2 run.1)
    as (evs & Htrace & _ & Hhead & _).
  - by apply run_parts.
  - exists evs. split; [done|]. apply Hhead. by vm_compute.
Defined.

Lemma next_rotation_after_now_witness :
  Scenario.noon 1 < next_rotation 0 0 (Scenario.noon 1)
  <= Scenario.noon 1 + hours 24.
Proof.
  destruct (next_rotation_after_now (zone := utc_fixed_offset) 0 0
              (Scenario.noon 1)) as (_ & _ & _ & Hbounds).
  - by vm_compute.
  - by vm_compute.
  - exact Hbounds.
Defined.

Lemma pruning_failure_policy_witness :
  (sink_it_ Cases.record2 (Scenario.sink0, Cases.day1_world)).1
  = Throw (failed_removing_daily_file (lit "logs/app_2023-12-31.log"))
  /\ (sink_it_ Cases.record2 (Scenario.sink1, Cases.day1_world)).1 = Ret tt
  /\ (sink_it_ Cases.record2 (Scenario.sink1, Scenario.locked_world)).1
     = Throw (failed_removing_daily_file (lit "logs/app_2024-01-01.log")).
Proof.
  split_and!.
  - destruct (pruning_failure_policy 0 Cases.record2 Scenario.sink0
                Cases.day1_world) as (_ & -> & _); by vm_compute.
  - destruct (pruning_failure_policy 0 Cases.record2 Scenario.sink1
                Cases.day1_world) as (_ & -> & _); by vm_compute.
  - destruct (pruning_failure_policy 0 Cases.record2 Scenario.sink1
                Scenario.locked_world) as (_ & -> & _); by vm_compute.
Defined.



Lemma retention_error_after_write_witness :
  let run := sink_it_ (mk_log_msg (Scenario.noon 2) (lit "b"))
               (Scenario.sink1, Scenario.locked_world) in
  run.1 = Throw (failed_removing_daily_file (lit "logs/app_2024-01-01.log"))
  /\ exists old,
       files run.2.2 !! resolve (lit "logs/app_2024-01-02.log")
       = Some (old ++ lit "b;").
Proof.
  intros run.
  assert (Hthrow : run.1 = Throw (failed_removing_daily_file
                                    (lit "logs/app_2024-01-01.log")))
    by by vm_compute.
  split; [done|].
  destruct (retention_error_after_write
              (mk_log_msg (Scenario.noon 2) (lit "b"))
              Scenario.sink1 run.2.1 Scenario.locked_world run.2.2 run.1)
    as (_ & Hheld).
  - by apply run_parts.
  - by destruct (Hheld _ Hthrow) as (_ & Hfile).
Defined.

Lemma rotation_instant_follows_wall_clock_witness :
  let run := sink_it_ (mk_log_msg (Scenario.noon 2) (lit "b"))
               (Scenario.sink0, Scenario.constructed.2) in
  rotation_tp_ Scenario.sink0 <= rotation_tp_ run.2.1.
Proof.
  intros run.
  destruct (rotation_instant_follows_wall_clock (zone := utc_fixed_offset)
              (mk_log_msg (Scenario.noon 2) (lit "b"))
              Scenario.sink0 run.2.1 Scenario.constructed.2 run.2.2 run.1)
    as (_ & Hmono & _).
  - eapply reached_by_ctor. apply constructed_sink0.
  - apply silent_day_clock_monotone. by vm_compute.
  - apply silent_day_clock_in_range. by vm_compute.
  - by apply run_parts.
  - exact Hmono.
Defined.

End Runs.

(* ===================================================================== *)
(** ** Dates in file names *)
(* ===================================================================== *)

Lemma compare_app (a1 a2 b1 b2 : filename_t) :
  length a1 = length a2 ->
  compare (a1 ++ b1) (a2 ++ b2) = then_compare (compare a1 a2) (compare b1 b2).
Proof.
  revert a2. induction a1 as [|x a1 IH]; intros [|y a2] Hlen; try done.
  cbn. destruct (N.compare (N_of_ascii x) (N_of_ascii y)); [|done..].
  apply IH. by injection Hlen.
Qed.

Lemma digit_char_compare (a b : Z) :
  0 <= a <= 9 -> 0 <= b <= 9 ->
  N.compare (N_of_ascii (digit_char a)) (N_of_ascii (digit_char b)) = (a ?= b).
Proof.
  intros Ha Hb. unfold digit_char.
  rewrite !N_ascii_embedding by lia.
  rewrite Z2N.inj_compare by lia. apply Z.add_compare_mono_l.
Qed.

Lemma compare_two_digits (a b : Z) :
  0 <= a <= 99 -> 0 <= b <= 99 ->
  compare (two_digits a) (two_digits b) = (a ?= b).
Proof.
  intros Ha Hb. unfold two_digits. cbn [compare].
  rewrite !digit_char_compare by (Z.to_euclidean_division_equations; lia).
  destruct (Z.compare_spec (a / 10) (b / 10)) as [E|E|E];
    destruct (Z.compare_spec (a mod 10) (b mod 10)) as [E'|E'|E'];
    symmetry; first [apply Z.compare_eq_iff | apply Z.compare_lt_iff
                    | apply Z.compare_gt_iff];
    Z.to_euclidean_division_equations; lia.
Qed.

Lemma four_digits_split (y : Z) :
  0 <= y <= 9999 ->
  four_digits y = two_digits (y / 100) ++ two_digits (y mod 100).
Proof.
  intros Hy. unfold four_digits, two_digits. cbn [app].
  replace (y / 100 / 10) with (y / 1000)
    by (Z.to_euclidean_division_equations; lia).
  replace (y mod 100 / 10) with (y / 10 mod 10)
    by (Z.to_euclidean_division_equations; lia).
  replace (y mod 100 mod 10) with (y mod 10)
    by (Z.to_euclidean_division_equations; lia).
  done.
Qed.

Lemma compare_four_digits (a b : Z) :
  0 <= a <= 9999 -> 0 <= b <= 9999 ->
  compare (four_digits a) (four_digits b) = (a ?= b).
Proof.
  intros Ha Hb. rewrite !four_digits_split by done.
  rewrite compare_app by done.
  rewrite !compare_two_digits by (Z.to_euclidean_division_equations; lia).
  unfold then_compare.
  destruct (Z.compare_spec (a / 100) (b / 100)) as [E|E|E];
    destruct (Z.compare_spec (a mod 100) (b mod 100)) as [E'|E'|E'];
    symmetry; first [apply Z.compare_eq_iff | apply Z.compare_lt_iff
                    | apply Z.compare_gt_iff];
    Z.to_euclidean_division_equations; lia.
Qed.

Lemma compare_date_text (y1 m1 d1 y2 m2 d2 : Z) :
  0 <= y1 <= 9999 -> 0 <= m1 <= 99 -> 0 <= d1 <= 99 ->
  0 <= y2 <= 9999 -> 0 <= m2 <= 99 -> 0 <= d2 <= 99 ->
  compare (date_text y1 m1 d1) (date_text y2 m2 d2)
  = ((y1 * 100 + m1) * 100 + d1 ?= (y2 * 100 + m2) * 100 + d2).
Proof.
  intros. unfold date_text.
  rewrite compare_app by done. rewrite compare_four_digits by done.
  rewrite (compare_app (lit "-") (lit "-")) by done.
  rewrite (compare_app (two_digits m1) (two_digits m2)) by done.
  rewrite (compare_app (lit "-") (lit "-")) by done.
  rewrite !compare_two_digits by done.
  change (compare (lit "-") (lit "-")) with Eq. unfold then_compare.
  destruct (Z.compare_spec y1 y2) as [E|E|E];
    destruct (Z.compare_spec m1 m2) as [E'|E'|E'];
    destruct (Z.compare_spec d1 d2) as [E''|E''|E''];
    symmetry; first [apply Z.compare_eq_iff | apply Z.compare_lt_iff
                    | apply Z.compare_gt_iff]; lia.
Qed.

Lemma date_suffix_text (y m d : Z) :
  date_suffix y m d = lit "_" ++ date_text y m d.
Proof. done. Qed.

(** The parts of a base file name, as [calc_filename] and
    [remove_obsolete_logs_] see them. *)
Lemma base_name_parts (base : filename_t) :
  size base <= max_size ->
  exists dir stem ext,
    base = dir ++ stem ++ ext
    /\ ("/"%char ∉ stem ++ ext)
    /\ (dir = [] \/ exists d, dir = d ++ lit "/")
    /\ obsolete_logs_pattern base
       = (if bool_decide (dir = []) then lit "." else dir,
          stem ++ ext, stem ++ lit "_", ext)
    /\ split_by_extension base = (dir ++ stem, ext)
    /\ split_by_extension (stem ++ ext) = (stem, ext).
Proof.
  intros Hsize.
  assert (Hmax : max_size < npos) by done.
  destruct (obsolete_logs_pattern_spec base)
    as (dir & basename & -> & Hnosep & Hdir & Hpattern); [lia|].
  pose proof (size_nonneg dir) as Hdir0. rewrite size_app in Hsize.
  assert (Hb : size basename < npos) by lia.
  pose proof (split_by_extension_spec basename Hb) as Hsplit.
  pose proof (stem_and_extension_in_folder dir _ _ _ Hnosep Hdir Hsplit)
    as Hfull.
  assert (Hlt : size (dir ++ basename) < npos) by (rewrite size_app; lia).
  destruct (stem_and_extension_unique _ _ _ _ _ Hfull
              (split_by_extension_spec _ Hlt)) as [Hstem Hext].
  exists dir, (split_by_extension basename).1, (split_by_extension basename).2.
  apply stem_and_extension_app in Hsplit. rewrite <- Hsplit.
  split_and!; try done.
  - rewrite Hstem, Hext. by destruct (split_by_extension (dir ++ basename)).
  - by destruct (split_by_extension basename).
Qed.

Lemma calc_filename_date_text (base : filename_t) (t : tm) :
  fits_columns t ->
  calc_filename base t
  = ((split_by_extension base).1 ++ lit "_")
      ++ date_text (tm_year t + 1900) (tm_mon t + 1) (tm_mday t)
      ++ (split_by_extension base).2.
Proof.
  intros (Hy & Hm & Hd). rewrite calc_filename_date_suffix by done.
  rewrite date_suffix_text. by rewrite <- !app_assoc.
Qed.

Lemma substr_date (prefix date ext : filename_t) :
  length date = 10%nat ->
  substr ((prefix ++ date) ++ ext) (size prefix) (suffix_size - 1) = date.
Proof.
  intros Hlen. unfold substr, size.
  rewrite Nat2Z.id. rewrite <- app_assoc, drop_app_length.
  change (Z.to_nat (suffix_size - 1)) with 10%nat.
  rewrite <- Hlen. by rewrite take_app_length.
Qed.

(** X1. For a base name of at most [max_size] characters, the test that
    [remove_obsolete_logs_] applies to the names of a folder,
    [is_daily_log], accepts exactly the names made of the prefix (the stem
    of the base name and an underscore), ten characters that are digits
    except for a dash in fifth and in eighth place, and the extension:
    nothing before, between or after. *)
Theorem is_daily_log_accepts (base filename : filename_t) :
  size base <= max_size ->
  let '(_, basename, prefix, ext) := obsolete_logs_pattern base in
  is_daily_log (size basename + suffix_size) prefix ext filename = true
  <-> exists date,
        filename = prefix ++ date ++ ext /\ date_region date.
Proof.
  intros Hsize.
  destruct (base_name_parts base Hsize)
    as (dir & stem & ext & -> & _ & _ & -> & _ & _).
  apply is_daily_log_structure.
  pose proof (size_nonneg dir). rewrite size_app in Hsize.
  assert (max_size + suffix_size < npos) by done. lia.
Qed.

Lemma is_daily_log_accepts_witness :
  size (lit "logs/app.txt") <= max_size
  /\ exists date,
       lit "app_2024-01-05.txt" = lit "app_" ++ date ++ lit ".txt"
       /\ date_region date.
Proof.
  pose proof (is_daily_log_accepts (lit "logs/app.txt")
                (lit "app_2024-01-05.txt")) as H.
  change (obsolete_logs_pattern (lit "logs/app.txt"))
    with (lit "logs/", lit "app.txt", lit "app_", lit ".txt") in H.
  split; [by vm_compute|]. apply H; by vm_compute.
Defined.

(** X2. For a base name of at most [max_size] characters and calendar
    times whose fields fit the columns: the scan of
    [remove_obsolete_logs_] takes the name that [calc_filename] gives for
    a time [t] for obsolete exactly when the date of [t] is the cutoff
    date or an earlier one. The comparison of the ten characters as
    strings is the comparison of the dates. *)
Theorem is_obsolete_by_date (base : filename_t) (cutoff_tm t : tm) :
  size base <= max_size ->
  fits_columns cutoff_tm ->
  fits_columns t ->
  let '(_, basename, _, _) := obsolete_logs_pattern base in
  is_obsolete base cutoff_tm (calc_filename basename t)
  = (date_key t <=? date_key cutoff_tm).
Proof.
  intros Hsize Hc Ht.
  destruct (base_name_parts base Hsize)
    as (dir & stem & ext & -> & _ & _ & Hpattern & _ & Hsplit).
  rewrite Hpattern. unfold is_obsolete. rewrite Hpattern.
  rewrite !calc_filename_date_text, Hsplit by done. cbn [fst snd].
  assert (Hfit : size (stem ++ ext) + suffix_size < npos).
  { pose proof (size_nonneg dir). rewrite size_app in Hsize.
    assert (max_size + suffix_size < npos) by done. lia. }
  destruct (is_daily_log_structure stem ext
              ((stem ++ lit "_")
                 ++ date_text (tm_year t + 1900) (tm_mon t + 1) (tm_mday t)
                 ++ ext) Hfit) as [_ ->].
  - rewrite !app_assoc, !substr_date by done. cbn [andb].
    unfold str_le. destruct Hc as (? & ? & ?), Ht as (? & ? & ?).
    rewrite compare_date_text by done. unfold date_key, Z.leb.
    by destruct (_ ?= _).
  - eexists. split; [done|].
    destruct Ht as (Hy & Hm & Hd).
    destruct (date_suffix_shape _ _ _ Hy Hm Hd) as (date & E & Hlen & Hdate).
    rewrite date_suffix_text in E. apply (inj (app (lit "_"))) in E as ->.
    split; [done|]. by apply all_of_date_region.
Qed.

Lemma is_obsolete_by_date_witness :
  let cutoff_tm := mk_tm 0 0 12 3 0 124 0 0 0 in
  let t := mk_tm 0 0 12 31 11 123 0 0 0 in
  size (lit "logs/app.txt") <= max_size
  /\ fits_columns cutoff_tm
  /\ fits_columns t
  /\ is_obsolete (lit "logs/app.txt") cutoff_tm
       (calc_filename (lit "app.txt") t) = true.
Proof.
  assert (Hfits : forall d m y, 0 <= y + 1900 <= 9999 -> 0 <= m + 1 <= 99 ->
            0 <= d <= 99 -> fits_columns (mk_tm 0 0 12 d m y 0 0 0))
    by (intros; done).
  pose proof (is_obsolete_by_date (lit "logs/app.txt")
                (mk_tm 0 0 12 3 0 124 0 0 0) (mk_tm 0 0 12 31 11 123 0 0 0))
    as H.
  change (obsolete_logs_pattern (lit "logs/app.txt"))
    with (lit "logs/", lit "app.txt", lit "app_", lit ".txt") in H.
  split_and!; [by vm_compute | apply Hfits; lia | apply Hfits; lia |].
  rewrite H; [done | by vm_compute | apply Hfits; lia | apply Hfits; lia].
Defined.

(** X3. For calendar times whose fields fit the columns, [calc_filename]
    gives two times the same name exactly when they have the same year,
    month and day: files of different days never share a name. *)
Theorem calc_filename_same_name (base : filename_t) (t1 t2 : tm) :
  fits_columns t1 ->
  fits_columns t2 ->
  calc_filename base t1 = calc_filename base t2
  <-> tm_year t1 = tm_year t2 /\ tm_mon t1 = tm_mon t2
      /\ tm_mday t1 = tm_mday t2.
Proof.
  intros H1 H2. rewrite !calc_filename_date_text by done. split.
  - intros E. apply (inj (app _)) in E.
    apply app_inv_tail in E.
    destruct H1 as (? & ? & ?), H2 as (? & ? & ?).
    pose proof (compare_date_text (tm_year t1 + 1900) (tm_mon t1 + 1)
                  (tm_mday t1) (tm_year t2 + 1900) (tm_mon t2 + 1)
                  (tm_mday t2)) as Hcmp.
    rewrite E in Hcmp.
    assert (Hrefl : forall a, compare a a = Eq).
    { induction a as [|c a IH]; [done|]. cbn. by rewrite N.compare_refl. }
    rewrite Hrefl in Hcmp. symmetry in Hcmp.
    apply Z.compare_eq_iff in Hcmp; [lia|done..].
  - by intros (-> & -> & ->).
Qed.

Lemma calc_filename_same_name_witness :
  let t1 := mk_tm 0 0 12 3 0 124 0 0 0 in
  let t2 := mk_tm 59 59 23 3 0 124 3 2 0 in
  fits_columns t1 /\ fits_columns t2
  /\ calc_filename (lit "logs/app.txt") t1
     = calc_filename (lit "logs/app.txt") t2.
Proof.
  assert (Hfits : forall s mi h d m y wd yd, 0 <= y + 1900 <= 9999 ->
            0 <= m + 1 <= 99 -> 0 <= d <= 99 ->
            fits_columns (mk_tm s mi h d m y wd yd 0))
    by (intros; done).
  split_and!; [apply Hfits; lia | apply Hfits; lia |].
  apply (calc_filename_same_name (lit "logs/app.txt")
           (mk_tm 0 0 12 3 0 124 0 0 0) (mk_tm 59 59 23 3 0 124 3 2 0));
    [apply Hfits; lia | apply Hfits; lia | done].
Defined.

(* ===================================================================== *)
(** ** Rotation instants, a day apart *)
(* ===================================================================== *)

Section RotationGrid.
Context {P : Platform} {utc_offset : Z} {zone : FixedOffsetZone P utc_offset}.

(** X4. In a zone at a fixed offset from UTC, for a valid rotation time
    and for clock readings at least 24 hours from the ends of the range
    of time points, the rotation instants are a whole number of days
    apart: as long as the clock has not reached the instant computed
    earlier, [next_rotation] gives that instant again; once the clock has
    reached it, [next_rotation] gives an instant that is later by 24
    hours or a multiple of 24 hours. *)
Theorem next_rotation_once_a_day (h m now1 now2 : Z) :
  valid_rotation_time h m ->
  far_from_the_ends now1 ->
  far_from_the_ends now2 ->
  now1 <= now2 ->
  (now2 < next_rotation h m now1 ->
   next_rotation h m now2 = next_rotation h m now1)
  /\ (next_rotation h m now1 <= now2 ->
      exists days,
        1 <= days
        /\ next_rotation h m now2 = next_rotation h m now1 + hours (24 * days)).
Proof.
  intros [Hh Hm] H1 H2 Hle.
  destruct (next_rotation_days (zone := zone) h m now1 now2 Hh Hm H1 H2 Hle)
    as [Hsame Hlater].
  split; [done|]. intros Hreached.
  destruct (Hlater Hreached) as (days & Hdays & Hnext & _). by exists days.
Qed.

End RotationGrid.

(* ===================================================================== *)
(** ** Calls of the sink, one after the other *)
(* ===================================================================== *)

Section SinkExtras.
Context {P : Platform}.

(** X5. A sink without a retention limit ([max_files_ = 0]) removes
    nothing: after a call of [sink_it_], whatever its outcome, every file
    that existed still exists, every file other than the one the sink
    holds is as it was, and the calls that were made are calls to open
    and to write. *)
Theorem sink_it_keeps_all_files (msg : log_msg) (s s' : daily_file_sink)
    (w w' : world) (r : outcome unit) :
  max_files_ s = 0 ->
  sink_it_ msg (s, w) = (r, (s', w')) ->
  (forall id, is_Some (files w !! id) -> is_Some (files w' !! id))
  /\ (forall id, id <> resolve (filename s') -> files w' !! id = files w !! id)
  /\ exists evs,
       trace w' = trace w ++ evs
       /\ forall e, e ∈ evs ->
            exists fname, (exists truncate, e = EvOpen fname truncate)
                          \/ (exists buf, e = EvWrite fname buf).
Proof.
  intros Hmax Hrun. unfold filename.
  assert (Hopen : forall fname b, exists f : filename_t,
            (exists t, EvOpen fname b = EvOpen f t)
            \/ (exists buf, EvOpen fname b = EvWrite f buf))
    by (intros; eexists; left; by eexists).
  assert (Hwrite : forall fname b, exists f : filename_t,
            (exists t, EvWrite fname b = EvOpen f t)
            \/ (exists buf, EvWrite fname b = EvWrite f buf))
    by (intros; eexists; right; by eexists).
  assert (Hins : forall (m : gmap file_id filename_t) k v id,
            is_Some (m !! id) -> is_Some (<[k := v]> m !! id)).
  { intros m k v id Hsome. destruct (decide (k = id)) as [->|Hne].
    - by rewrite lookup_insert_eq.
    - by rewrite lookup_insert_ne. }
  assert (Halt : forall (m : gmap file_id filename_t) f k id,
            is_Some (m !! id) -> is_Some (alter f k m !! id)).
  { intros m f k id Hsome. destruct (decide (k = id)) as [->|Hne].
    - rewrite lookup_alter_eq. by apply fmap_is_Some.
    - by rewrite lookup_alter_ne. }
  destruct (Z.le_gt_cases (rotation_tp_ s) (time msg)) as [Hdue|Hearly].
  - rewrite sink_it_due in Hrun by done. cbv zeta in Hrun.
    rewrite Hmax in Hrun. change (0 >? 0) with false in Hrun.
    repeat case_match; simplify_eq; cbn; rewrite <- ?app_assoc;
      (split_and!; [ | | eexists; split; [done|]]).
    all: try (intros id Hsome; by auto).
    all: try (intros id Hne;
              by rewrite ?lookup_alter_ne, ?lookup_insert_ne by done).
    all: intros e Hin; cbn [app] in Hin;
      repeat (apply elem_of_cons in Hin as [->|Hin]; [done|]);
      by apply elem_of_nil in Hin.
  - rewrite sink_it_not_due in Hrun by done. cbv zeta in Hrun.
    repeat case_match; simplify_eq; cbn;
      (split_and!;
         [ | | first [ exists []; split; [by rewrite app_nil_r|]
                     | eexists; split; [done|] ] ]).
    all: try (intros id Hsome; by auto).
    all: try (intros id Hne;
              by rewrite ?lookup_alter_ne, ?lookup_insert_ne by done).
    all: intros e Hin; cbn [app] in Hin;
      repeat (apply elem_of_cons in Hin as [->|Hin]; [done|]);
      by apply elem_of_nil in Hin.
Qed.


(** X6. When the file of the record's date cannot be opened, the call
    of [sink_it_] throws the error of [file_helper::open] after that one
    call: no file is changed, the record is not written, and the stored
    rotation instant stays as it was. The rotation is therefore tried
    again: the call for any record that is not older starts by opening
    the file of that record's date. *)
Theorem failed_open_is_retried (msg next : log_msg) (s : daily_file_sink)
    (w : world) :
  let fname := calc_filename (base_filename_ s) (now_tm (time msg)) in
  rotation_tp_ s <= time msg ->
  cannot_open w fname = true ->
  time msg <= time next ->
  exists s' w',
    sink_it_ msg (s, w) = (Throw (failed_opening_file fname), (s', w'))
    /\ files w' = files w
    /\ trace w' = trace w ++ [EvOpen fname (truncate_ s)]
    /\ rotation_tp_ s' = rotation_tp_ s
    /\ exists evs,
         trace (sink_it_ next (s', w')).2.2
         = trace w'
             ++ EvOpen (calc_filename (base_filename_ s)
                          (now_tm (time next))) (truncate_ s) :: evs.
Proof.
  intros fname Hdue Hfail Hnext. eexists _, _. split.
  { rewrite sink_it_due by done. cbv zeta. fold fname. by rewrite Hfail. }
  split_and!; [done..|].
  rewrite sink_it_due by (cbn; lia). cbv zeta. cbn.
  repeat case_match; cbn; eexists; rewrite <- !app_assoc; reflexivity.
Qed.


(** X9. Logging never changes the configuration of a sink: after any
    sequence of calls of [sink_it_], with any outcomes, the base file
    name, the rotation hour and minute, the truncation flag, the retention
    limit and the formatter are those of the start; and every record has
    its outcome. *)
Theorem sink_all_keeps_configuration (msgs : list log_msg)
    (s s' : daily_file_sink) (w w' : world) (rs : list (outcome unit)) :
  sink_all msgs (s, w) = (rs, (s', w')) ->
  base_filename_ s' = base_filename_ s
  /\ rotation_h_ s' = rotation_h_ s
  /\ rotation_m_ s' = rotation_m_ s
  /\ truncate_ s' = truncate_ s
  /\ max_files_ s' = max_files_ s
  /\ formatter_ s' = formatter_ s
  /\ length rs = length msgs.
Proof.
  revert s w rs. induction msgs as [|msg msgs IH]; intros s w rs Hrun.
  - by simplify_eq/=.
  - cbn [sink_all] in Hrun.
    destruct (sink_it_ msg (s, w)) as [r [s1 w1]] eqn:Hone.
    destruct (sink_all msgs (s1, w1)) as [rs' [s2 w2]] eqn:Hrest.
    simplify_eq. apply IH in Hrest as (-> & -> & -> & -> & -> & -> & Hlen).
    cbn [length]. rewrite Hlen.
    destruct (Z.le_gt_cases (rotation_tp_ s) (time msg)) as [Hdue|Hearly].
    + rewrite sink_it_due in Hone by done. cbv zeta in Hone.
      by repeat case_match; simplify_eq.
    + rewrite sink_it_not_due in Hone by done. cbv zeta in Hone.
      by repeat case_match; simplify_eq.
Qed.

(** X10. Records stamped before the rotation instant are appended in the
    order of the calls: when the file is open and can be written, the
    calls return, make one call to write each and no other call, leave
    the object as it was, and the file that [filename()] names holds what
    it held followed by the formatted records one after the other. *)
Theorem sink_all_appends_in_order (msgs : list log_msg)
    (s s' : daily_file_sink) (w w' : world) (rs : list (outcome unit)) :
  fd_open (file_helper_ s) = true ->
  cannot_write w (filename s) = false ->
  Forall (fun msg => time msg < rotation_tp_ s) msgs ->
  sink_all msgs (s, w) = (rs, (s', w')) ->
  s' = s
  /\ Forall (fun r => r = Ret tt) rs
  /\ trace w'
     = trace w ++ map (fun msg => EvWrite (filename s) (formatter_ s msg)) msgs
  /\ files w'
     = alter (fun old => old ++ concat (map (formatter_ s) msgs))
         (resolve (filename s)) (files w).
Proof.
  intros Hfd. unfold filename. revert w rs.
  induction msgs as [|msg msgs IH]; intros w rs Hw Hall Hrun.
  - simplify_eq/=. rewrite app_nil_r. split_and!; try done.
    symmetry. apply alter_id. intros x _. apply app_nil_r.
  - apply Forall_cons in Hall as [Hearly Hall]. cbn [sink_all] in Hrun.
    rewrite sink_it_not_due in Hrun by done. cbv zeta in Hrun.
    rewrite Hfd, Hw in Hrun. cbn [negb] in Hrun.
    destruct (sink_all msgs _) as [rs' [s2 w2]] eqn:Hrest.
    simplify_eq. apply IH in Hrest as (-> & Hrs & -> & ->); [|done..].
    cbn. rewrite <- app_assoc. split_and!; try done.
    + by constructor.
    + rewrite alter_alter_eq. apply alter_ext. intros x _. cbn.
      by rewrite app_assoc.
Qed.

(** X16. When a call of [sink_it_] throws the error of
    [file_helper::write], the file concerned is the one that [filename()]
    names, no removal has been asked for and no other file has changed.
    If the call had rotated, the rotation stays done: the new file is
    open and holds what it held at the opening, without the record, and
    the rotation instant is the next one, so the removal that belongs to
    this rotation is not made up for later. *)
Theorem failed_write_skips_removal (msg : log_msg) (s s' : daily_file_sink)
    (w w' : world) (fname : filename_t) :
  sink_it_ msg (s, w) = (Throw (failed_writing_to_file fname), (s', w')) ->
  fname = filename s'
  /\ (forall path, EvRemove path ∉ drop (length (trace w)) (trace w'))
  /\ (forall id,
        id <> resolve fname -> files w' !! id = files w !! id)
  /\ (rotation_tp_ s <= time msg ->
      fd_open (file_helper_ s') = true
      /\ fname = calc_filename (base_filename_ s) (now_tm (time msg))
      /\ rotation_tp_ s'
         = next_rotation (rotation_h_ s) (rotation_m_ s)
             (clock w (clock_reads w))
      /\ files w' !! resolve fname
         = Some (if truncate_ s then []
                 else default [] (files w !! resolve fname))).
Proof.
  intros Hrun. unfold filename.
  destruct (Z.le_gt_cases (rotation_tp_ s) (time msg)) as [Hdue|Hearly].
  - rewrite sink_it_due in Hrun by done. cbv zeta in Hrun.
    destruct (cannot_open w _); [done|].
    destruct (cannot_write w _); [|by repeat case_match].
    simplify_eq. cbn.
    rewrite <- !app_assoc, drop_app_length. split_and!; [done| | |].
    + intros path Hin.
      repeat (apply elem_of_cons in Hin as [?|Hin]; [done|]).
      by apply elem_of_nil in Hin.
    + intros id Hne. by rewrite lookup_insert_ne.
    + intros _. by rewrite lookup_insert_eq.
  - rewrite sink_it_not_due in Hrun by done. cbv zeta in Hrun.
    repeat case_match; simplify_eq; cbn;
      (split_and!; [done| |done|lia]); intros path Hin;
      rewrite ?drop_all, ?drop_app_length in Hin;
      repeat (apply elem_of_cons in Hin as [?|Hin]; [done|]);
      by apply elem_of_nil in Hin.
Qed.

End SinkExtras.

(* ===================================================================== *)
(** ** The scan at construction, entry by entry *)
(* ===================================================================== *)

(** One removal of the scan. *)
Lemma prune_entry_spec (folder : filename_t) (obsolete : filename_t -> bool)
    (f : filename_t) (w : world) :
  let w' := prune_entry folder obsolete f w in
  cannot_open w' = cannot_open w
  /\ cannot_write w' = cannot_write w
  /\ cannot_remove w' = cannot_remove w
  /\ trace w'
     = trace w ++ (if obsolete f then [EvRemove (folder ++ f)] else [])
  /\ files w'
     = if obsolete f && negb (cannot_remove w (folder ++ f))
       then delete (resolve (folder ++ f)) (files w)
       else files w.
Proof.
  unfold prune_entry, remove_if_exists, os_remove.
  destruct (obsolete f); cbn [andb]; [|by rewrite app_nil_r].
  unfold path_exists. cbn.
  case_bool_decide as Hsome; cbn.
  - by destruct (cannot_remove w _).
  - destruct (cannot_remove w _); cbn; split_and!; try done.
    symmetry. apply delete_id. by apply eq_None_not_Some.
Qed.

(** The removals of the scan, entry after entry. *)
Lemma prune_entries_spec (folder : filename_t) (obsolete : filename_t -> bool)
    (entries : list filename_t) (w : world) :
  let w' := foldl (fun w f => prune_entry folder obsolete f w) w entries in
  cannot_open w' = cannot_open w
  /\ cannot_write w' = cannot_write w
  /\ cannot_remove w' = cannot_remove w
  /\ trace w'
     = trace w
         ++ map (fun f => EvRemove (folder ++ f))
              (filter (fun f => obsolete f = true) entries)
  /\ forall id,
       let removed :=
         exists f, f ∈ entries /\ obsolete f = true
                   /\ cannot_remove w (folder ++ f) = false
                   /\ id = resolve (folder ++ f) in
       (removed -> files w' !! id = None)
       /\ (~ removed -> files w' !! id = files w !! id).
Proof.
  revert w. induction entries as [|f entries IH]; intros w.
  - cbn. rewrite app_nil_r. split_and!; try done. intros id.
    split; [|done]. intros (f & Hin & _). by apply elem_of_nil in Hin.
  - cbn [foldl].
    destruct (IH (prune_entry folder obsolete f w))
      as (-> & -> & -> & -> & Hfiles).
    destruct (prune_entry_spec folder obsolete f w)
      as (-> & -> & Hcr & -> & Hf).
    split_and!; try done.
    + rewrite <- app_assoc. f_equal.
      destruct (obsolete f) eqn:E.
      * by rewrite filter_cons_True.
      * by rewrite filter_cons_False by congruence.
    + intros id. destruct (Hfiles id) as [Hgone Hkept].
      rewrite Hcr in Hgone, Hkept. cbv zeta.
      set (tail := exists g, g ∈ entries /\ obsolete g = true
                     /\ cannot_remove w (folder ++ g) = false
                     /\ id = resolve (folder ++ g)) in *.
      assert (Hdec : tail \/ ~ tail).
      { destruct (decide (Exists (fun g => obsolete g = true
                     /\ cannot_remove w (folder ++ g) = false
                     /\ id = resolve (folder ++ g)) entries)) as [H|H].
        - left. apply Exists_exists in H as (g & ? & ?). by exists g.
        - right. intros (g & ? & ?). apply H, Exists_exists. by exists g. }
      split.
      * intros (g & [->|Hin]%elem_of_cons & Ho & Hr & ->).
        -- destruct Hdec as [Ht|Ht]; [by apply Hgone|].
           rewrite (Hkept Ht), Hf, Ho, Hr. cbn. apply lookup_delete_eq.
        -- apply Hgone. by exists g.
      * intros Hnot. assert (Ht : ~ tail).
        { intros (g & ? & ?). apply Hnot. exists g. split; [by right|done]. }
        rewrite (Hkept Ht), Hf.
        destruct (obsolete f && negb (cannot_remove w (folder ++ f))) eqn:E;
          [|done].
        apply andb_true_iff in E as [Ho Hr%negb_true_iff].
        apply lookup_delete_ne. intros <-. apply Hnot. exists f.
        split; [by left|done].
Qed.

Section ScanRuns.
Context {P : Platform}.

(** What the scan at construction does to the world. *)
Lemma remove_obsolete_logs_spec (s : daily_file_sink) (w : world) :
  let folder := obsolete_logs_folder (base_filename_ s) in
  let obsolete :=
    is_obsolete (base_filename_ s)
      (now_tm (cutoff_tp_ s (clock w (clock_reads w)))) in
  exists w',
    remove_obsolete_logs_ (s, w) = (Ret tt, (s, w'))
    /\ cannot_open w' = cannot_open w
    /\ cannot_write w' = cannot_write w
    /\ cannot_remove w' = cannot_remove w
    /\ clock w' = clock w
    /\ clock_reads w' = S (clock_reads w)
    /\ trace w'
       = trace w
           ++ EvIterateDir folder
              :: map (fun f => EvRemove (folder ++ f))
                   (filter (fun f => obsolete f = true)
                      (dir_entries w folder))
    /\ forall id,
         let removed :=
           exists f, f ∈ dir_entries w folder /\ obsolete f = true
                     /\ cannot_remove w (folder ++ f) = false
                     /\ id = resolve (folder ++ f) in
         (removed -> files w' !! id = None)
         /\ (~ removed -> files w' !! id = files w !! id)
         /\ (removed \/ ~ removed).
Proof.
  intros folder obsolete. eexists. split; [apply remove_obsolete_logs_run|].
  cbv zeta. fold folder obsolete.
  set (w0 := record_event (advance_clock w) (EvIterateDir folder)).
  destruct (prune_entries_spec folder obsolete (dir_entries w folder) w0)
    as (-> & -> & -> & -> & Hfiles).
  destruct (prune_entry_clock folder obsolete (dir_entries w folder) w0)
    as [-> ->].
  split_and!; try done.
  - cbn. by rewrite <- app_assoc.
  - intros id. destruct (Hfiles id) as [Hgone Hkept]. split_and!; try done.
    destruct (decide (Exists (fun g => obsolete g = true
                /\ cannot_remove w (folder ++ g) = false
                /\ id = resolve (folder ++ g)) (dir_entries w folder)))
      as [H|H].
    + left. apply Exists_exists in H as (g & ? & ?). by exists g.
    + right. intros (g & ? & ?). apply H, Exists_exists. by exists g.
Qed.

End ScanRuns.

(** An entry that the scan takes for a log of its own is a file name. *)
Lemma is_obsolete_name (base : filename_t) (cutoff_tm : tm)
    (f : filename_t) :
  size base <= max_size ->
  is_obsolete base cutoff_tm f = true ->
  ("/"%char ∉ f) /\ is_name f = true.
Proof.
  intros Hsize Hobs.
  destruct (base_name_parts base Hsize)
    as (dir & stem & ext & -> & Hnosep & _ & Hpattern & _ & _).
  unfold is_obsolete in Hobs. rewrite Hpattern in Hobs.
  apply andb_true_iff in Hobs as [Hlog _].
  apply is_daily_log_structure in Hlog as (date & -> & Hdate).
  - pose proof Hdate as [Hlen _].
    apply all_of_date_region in Hdate; [|done].
    apply all_of_date_no_sep in Hdate.
    split.
    + rewrite elem_of_app in Hnosep.
      intros [[?|Hu]%elem_of_app|[?|?]%elem_of_app]%elem_of_app.
      * apply Hnosep. by left.
      * by apply list_elem_of_singleton in Hu.
      * done.
      * apply Hnosep. by right.
    + unfold is_name.
      rewrite !bool_decide_eq_false_2; [done| |].
      * intros E%(f_equal length). rewrite !length_app, Hlen in E.
        cbn in E. lia.
      * intros E%(f_equal length). rewrite !length_app, Hlen in E.
        cbn in E. lia.
  - pose proof (size_nonneg dir). rewrite size_app in Hsize.
    assert (max_size + suffix_size < npos) by done. lia.
Qed.

Section ScanExtras.
Context {P : Platform}.

(** X13. The scan of [remove_obsolete_logs_] leaves the object as it
    was, lists the folder of the base file name once and asks for the
    removal of the entries that pass its test, in the order of the
    listing. A file is either as it was or removed, and it is removed only
    under the path made of the folder and of a listed entry that passes
    the test: the scan creates and writes nothing. *)
Theorem scan_only_removes_obsolete_entries (s s' : daily_file_sink)
    (w w' : world) (r : outcome unit) :
  let folder := obsolete_logs_folder (base_filename_ s) in
  let obsolete :=
    is_obsolete (base_filename_ s)
      (now_tm (cutoff_tp_ s (clock w (clock_reads w)))) in
  remove_obsolete_logs_ (s, w) = (r, (s', w')) ->
  s' = s
  /\ trace w'
     = trace w
         ++ EvIterateDir folder
            :: map (fun f => EvRemove (folder ++ f))
                 (filter (fun f => obsolete f = true) (dir_entries w folder))
  /\ forall id,
       files w' !! id = files w !! id
       \/ (files w' !! id = None
           /\ exists f,
                f ∈ dir_entries w folder /\ obsolete f = true
                /\ id = resolve (folder ++ f)).
Proof.
  intros folder obsolete Hrun.
  destruct (remove_obsolete_logs_spec s w)
    as (w1 & Hspec & _ & _ & _ & _ & _ & Htrace & Hfiles).
  rewrite Hspec in Hrun. simplify_eq. split_and!; [done..|].
  intros id. destruct (Hfiles id) as (Hgone & Hkept & [Hyes|Hno]).
  - right. split; [by apply Hgone|].
    destruct Hyes as (f & ? & ? & _ & ?). by exists f.
  - left. by apply Hkept.
Qed.

(** X14. For a base name with a directory part, and when the removals
    succeed: after the scan of [remove_obsolete_logs_] the folder lists
    exactly the entries that it listed before and that do not pass the
    test of the scan. Every obsolete log is gone and nothing else is. *)
Theorem scan_clears_folder (s s' : daily_file_sink) (w w' : world)
    (r : outcome unit) :
  let folder := obsolete_logs_folder (base_filename_ s) in
  let obsolete :=
    is_obsolete (base_filename_ s)
      (now_tm (cutoff_tp_ s (clock w (clock_reads w)))) in
  size (base_filename_ s) <= max_size ->
  "/"%char ∈ base_filename_ s ->
  (forall f, obsolete f = true -> cannot_remove w (folder ++ f) = false) ->
  remove_obsolete_logs_ (s, w) = (r, (s', w')) ->
  forall f,
    f ∈ dir_entries w' folder
    <-> f ∈ dir_entries w folder /\ obsolete f = false.
Proof.
  intros folder obsolete Hsize Hdir Hfaults Hrun f.
  destruct (remove_obsolete_logs_spec s w)
    as (w1 & Hspec & _ & _ & _ & _ & _ & _ & Hfiles).
  rewrite Hspec in Hrun. injection Hrun as _ <- <-.
  cbv zeta in Hfiles. fold folder in Hfiles. fold obsolete in Hfiles.
  assert (Hnpos : size (base_filename_ s) < npos).
  { assert (max_size < npos) by done. lia. }
  assert (Hpath : forall g, obsolete g = true ->
            resolve (folder ++ g)
            = ((resolve folder).1, (resolve folder).2 ++ [g])).
  { intros g Hg.
    destruct (is_obsolete_name _ _ _ Hsize Hg) as [Hno Hname].
    by destruct (bulk_prune_path (base_filename_ s) g Hnpos Hno Hname)
      as [Hin _]; apply Hin. }
  rewrite !dir_entries_lookup.
  destruct (Hfiles ((resolve folder).1, (resolve folder).2 ++ [f]))
    as (Hgone & Hkept & [Hyes|Hno]).
  - rewrite (Hgone Hyes).
    destruct Hyes as (g & Hin & Hg & _ & Eid). rewrite (Hpath g Hg) in Eid.
    injection Eid as Eid%app_inv_head. simplify_eq.
    split; [by intros [? ?]|]. intros [_ Hf]. congruence.
  - rewrite (Hkept Hno). split; [|by intros [? _]].
    intros Hsome. split; [done|].
    destruct (obsolete f) eqn:Hf; [|done].
    destruct Hno. exists f. split_and!; try done.
    + by apply dir_entries_lookup.
    + by apply Hfaults.
    + by rewrite Hpath.
Qed.

End ScanExtras.

(* ===================================================================== *)
(** ** Construction, and the first records *)
(* ===================================================================== *)

Section ZoneExtras.
Context {P : Platform} {utc_offset : Z} {zone : FixedOffsetZone P utc_offset}.

(** X8. In a zone at a fixed offset from UTC, for a valid rotation time
    and a clock reading at least 24 hours from the ends of the range of
    time points: after a call of [sink_it_] that rotates and returns,
    [filename()] is the name that [calc_filename] gives for the date of
    the record, and a next record stamped at or before the clock reading
    of that rotation is appended to the same file without another
    rotation. *)
Theorem rotation_opens_file_for_the_day (msg next : log_msg)
    (s s' : daily_file_sink) (w w' : world) :
  let fname := calc_filename (base_filename_ s) (now_tm (time msg)) in
  valid_rotation_time (rotation_h_ s) (rotation_m_ s) ->
  far_from_the_ends (clock w (clock_reads w)) ->
  rotation_tp_ s <= time msg ->
  sink_it_ msg (s, w) = (Ret tt, (s', w')) ->
  time next <= clock w (clock_reads w) ->
  filename s' = fname
  /\ sink_it_ next (s', w')
     = (Ret tt,
        (s', append_file fname (formatter_ s next)
               (record_event w' (EvWrite fname (formatter_ s next))))).
Proof.
  intros fname [Hh Hm] Hrange Hdue Hrun Hnext.
  pose proof (next_rotation_bounds (zone := zone) (rotation_h_ s)
                (rotation_m_ s) (clock w (clock_reads w)) Hh Hm Hrange)
    as Hlater.
  rewrite sink_it_due in Hrun by done. cbv zeta in Hrun.
  fold fname in Hrun.
  destruct (cannot_open w fname) eqn:Hopen; [done|].
  destruct (cannot_write w fname) eqn:Hwrite; [done|].
  assert (Hs' : s' = set_rotation_tp_
                       (set_file_helper_ s (mk_file_helper true fname))
                       (next_rotation (rotation_h_ s) (rotation_m_ s)
                          (clock w (clock_reads w)))
                /\ cannot_write w' = cannot_write w).
  { by repeat case_match; simplify_eq. }
  destruct Hs' as [-> Hcw]. split; [done|].
  rewrite sink_it_not_due by (cbn; lia). cbv zeta. cbn.
  by rewrite Hcw, Hwrite.
Qed.

(** X11. In a zone at a fixed offset from UTC and for a second clock
    reading of the constructor at least 24 hours from the ends of the
    range of time points: a sink that has been constructed holds the file
    named after the date of the first clock reading, which is the first
    call that the constructor made; its rotation instant is after the
    second clock reading; and a record stamped at or before that reading
    is appended to that file without a rotation. *)
Theorem ctor_opens_file_of_the_day
    (formatter : log_msg -> filename_t) (base : filename_t)
    (h m : Z) (truncate : bool) (max_files : Z) (w w' : world)
    (s : daily_file_sink) (msg : log_msg) :
  let fname := calc_filename base (now_tm (clock w (clock_reads w))) in
  daily_file_sink_ctor formatter base h m truncate max_files w = (Ret s, w') ->
  far_from_the_ends (clock w (S (clock_reads w))) ->
  time msg <= clock w (S (clock_reads w)) ->
  cannot_write w fname = false ->
  filename s = fname
  /\ head (drop (length (trace w)) (trace w')) = Some (EvOpen fname truncate)
  /\ clock w (S (clock_reads w)) < rotation_tp_ s
  /\ sink_it_ msg (s, w')
     = (Ret tt,
        (s, append_file fname (formatter msg)
              (record_event w' (EvWrite fname (formatter msg))))).
Proof.
  intros fname Hrun Hrange Hmsg Hwrite.
  pose proof (ctor_checks_rotation_time _ _ _ _ _ _ _ _ _ Hrun) as Hvalid.
  pose proof Hvalid as [Hh Hm].
  pose proof (next_rotation_bounds (zone := zone) h m
                (clock w (S (clock_reads w))) Hh Hm Hrange) as Hlater.
  rewrite ctor_run in Hrun by done. cbv zeta in Hrun. fold fname in Hrun.
  destruct (cannot_open w fname) eqn:Hopen; [done|].
  set (s0 := mk_sink base h m _ _ truncate max_files formatter) in Hrun.
  assert (Hs : s = s0
               /\ cannot_write w' = cannot_write w
               /\ exists evs,
                    trace w' = trace w ++ EvOpen fname truncate :: evs).
  { destruct (max_files >? 0); injection Hrun as <- <-.
    - destruct (remove_obsolete_logs_spec s0
                  (advance_clock
                     (create_file fname truncate
                        (record_event (advance_clock w)
                           (EvOpen fname truncate)))))
        as (w2 & -> & _ & Hcw & _ & _ & _ & Htrace & _).
      cbn [snd]. rewrite Hcw, Htrace. split_and!; [done..|].
      cbn. eexists. rewrite <- !app_assoc. reflexivity.
    - split_and!; [done..|]. by exists []. }
  destruct Hs as (-> & Hcw & evs & Htrace).
  split_and!; [done| |cbn; lia|].
  - rewrite Htrace, drop_app_length. done.
  - rewrite sink_it_not_due by (cbn; lia). cbv zeta. cbn.
    by rewrite Hcw, Hwrite.
Qed.

End ZoneExtras.

Section MoreExtras.
Context {P : Platform}.

(** X12. The constructor returns an object exactly when the rotation
    time is valid and the file of the day can be opened. When it throws,
    it throws for the rotation time or for the file that could not be
    opened, and no file has been created, changed or removed; a removal
    that fails during the scan does not fail the construction. *)
Theorem ctor_outcome (formatter : log_msg -> filename_t) (base : filename_t)
    (h m : Z) (truncate : bool) (max_files : Z) (w : world) :
  let fname := calc_filename base (now_tm (clock w (clock_reads w))) in
  let run := daily_file_sink_ctor formatter base h m truncate max_files w in
  ((exists s, run.1 = Ret s)
   <-> valid_rotation_time h m /\ cannot_open w fname = false)
  /\ (forall e,
        run.1 = Throw e ->
        files run.2 = files w
        /\ (e = invalid_rotation_time \/ e = failed_opening_file fname)).
Proof.
  intros fname run. subst run.
  destruct (decide (valid_rotation_time h m)) as [Hvalid|Hbad].
  - rewrite ctor_run by done. cbv zeta. fold fname.
    destruct (cannot_open w fname) eqn:Hopen; cbn.
    + split.
      * split; [by intros [s ?]|by intros [_ ?]].
      * intros e [= <-]. split; [done|by right].
    + split.
      * split; [done|]. intros _. destruct (max_files >? 0); by eexists.
      * intros e He. by destruct (max_files >? 0).
  - rewrite ctor_invalid by done. cbn. split.
    + split; [by intros [s ?]|by intros [? _]].
    + intros e [= <-]. split; [done|by left].
Qed.


End MoreExtras.

(* ===================================================================== *)
(** ** The calculator of names from a [strftime] pattern *)
(* ===================================================================== *)

Lemma size_resize (s : filename_t) (n : Z) : 0 <= n -> size (resize s n) = n.
Proof.
  intros Hn. unfold resize, size.
  rewrite length_app, length_take, length_replicate. lia.
Qed.

Section FormatCalculator.
Variable strftime : filename_t -> filename_t -> tm -> Z * filename_t.
Variable expand : filename_t -> tm -> filename_t.
Hypothesis contract : strftime_contract strftime expand.

Lemma fill_fits (fuel : nat) (buf format : filename_t) (t : tm) :
  size (expand format t) + 1 < size buf ->
  daily_filename_format_calculator.fill strftime (S fuel) buf (format ++ [" "%char]) t
  = Some (expand format t).
Proof.
  intros Hfit.
  pose proof (strftime_space _ _ contract format t) as Hout.
  assert (Hsize : size (expand (format ++ [" "%char]) t)
                  = size (expand format t) + 1).
  { rewrite Hout. unfold size. rewrite length_app. simpl. lia. }
  cbn [daily_filename_format_calculator.fill]. rewrite (strftime_fits _ _ contract) by lia.
  pose proof (size_nonneg (expand format t)).
  destruct (Z.eqb_spec (size (expand (format ++ [" "%char]) t)) 0) as [?|_];
    [lia|]. cbn [negb].
  f_equal. unfold resize. rewrite Hsize.
  replace (size (expand format t) + 1 - 1) with (size (expand format t))
    by lia.
  unfold size. rewrite Nat2Z.id, Hout, <- app_assoc, take_app_length.
  rewrite (proj2 (Nat.sub_0_le _ _)); [apply app_nil_r|].
  rewrite length_app. lia.
Qed.

Lemma fill_overflow (fuel : nat) (buf format : filename_t) (t : tm) :
  size buf <= size (expand format t) + 1 ->
  exists buf',
    size buf' = size buf
    /\ daily_filename_format_calculator.fill strftime (S fuel) buf (format ++ [" "%char]) t
       = daily_filename_format_calculator.fill strftime fuel (resize buf' (size_mul (size buf) 2))
           (format ++ [" "%char]) t.
Proof.
  intros Hover.
  pose proof (strftime_space _ _ contract format t) as Hout.
  destruct (strftime_overflow _ _ contract buf (format ++ [" "%char]) t)
    as [Hcount Hkeep].
  { rewrite Hout. unfold size in *. rewrite length_app. simpl. lia. }
  exists (strftime buf (format ++ [" "%char]) t).2. split; [done|].
  cbn [daily_filename_format_calculator.fill]. destruct (strftime buf (format ++ [" "%char]) t) as [count buf'].
  cbn [fst snd] in *. subst count. cbn [negb Z.eqb]. by rewrite Hkeep.
Qed.

Lemma fill_partial (fuel : nat) (buf format : filename_t) (t : tm) :
  daily_filename_format_calculator.fill strftime fuel buf (format ++ [" "%char]) t = None
  \/ daily_filename_format_calculator.fill strftime fuel buf (format ++ [" "%char]) t
     = Some (expand format t).
Proof.
  revert buf. induction fuel as [|fuel IH]; intros buf; [by left|].
  destruct (Z.lt_ge_cases (size (expand format t) + 1) (size buf))
    as [Hfit|Hover].
  - right. by apply fill_fits.
  - destruct (fill_overflow fuel buf format t) as (buf' & _ & ->); [lia|].
    apply IH.
Qed.

Lemma fill_total (fuel : nat) (buf format : filename_t) (t : tm) :
  0 < size buf ->
  size (expand format t) + 1 < size buf * 2 ^ Z.of_nat fuel ->
  size buf * 2 ^ Z.of_nat fuel < size_max ->
  daily_filename_format_calculator.fill strftime (S fuel) buf (format ++ [" "%char]) t
  = Some (expand format t).
Proof.
  revert buf. induction fuel as [|fuel IH]; intros buf Hpos Hfit Hmax.
  - apply fill_fits. change (2 ^ Z.of_nat 0) with 1 in Hfit. lia.
  - destruct (Z.lt_ge_cases (size (expand format t) + 1) (size buf))
      as [Hnow|Hover]; [by apply fill_fits|].
    destruct (fill_overflow (S fuel) buf format t) as (buf' & _ & ->); [lia|].
    rewrite Nat2Z.inj_succ, Z.pow_succ_r in Hfit, Hmax by lia.
    assert (0 < 2 ^ Z.of_nat fuel) by (apply Z.pow_pos_nonneg; lia).
    assert (Hmul : size_mul (size buf) 2 = size buf * 2).
    { unfold size_mul. apply Z.mod_small. nia. }
    rewrite Hmul. apply IH; rewrite size_resize by lia; lia.
Qed.

(** X17. For a [strftime] that meets the contract of the C standard:
    the loop of the format calculator returns the expansion of the
    pattern, without the space that was appended to it, as soon as its
    buffer, which starts at 10 characters and doubles, is longer than the
    expansion and the space; it returns nothing else, however long it
    runs. *)
Theorem format_calculator_expands_pattern (fuel : nat)
    (filename : filename_t) (t : tm) :
  (size (expand filename t) + 1 < 10 * 2 ^ Z.of_nat fuel ->
   10 * 2 ^ Z.of_nat fuel < size_max ->
   daily_filename_format_calculator.calc_filename strftime (S fuel) filename t = Some (expand filename t))
  /\ (daily_filename_format_calculator.calc_filename strftime fuel filename t = None
      \/ daily_filename_format_calculator.calc_filename strftime fuel filename t = Some (expand filename t)).
Proof.
  unfold daily_filename_format_calculator.calc_filename. cbn [app]. split.
  - intros Hfit Hmax. by apply fill_total.
  - apply fill_partial.
Qed.

End FormatCalculator.

Lemma strftime_literal_contract :
  strftime_contract strftime_literal (fun format _ => format).
Proof.
  split.
  - intros buf format t Hfit. unfold strftime_literal.
    by destruct (Z.ltb_spec (size format) (size buf)); [|lia].
  - intros buf format t Hover. unfold strftime_literal.
    by destruct (Z.ltb_spec (size format) (size buf)); [lia|].
  - done.
Qed.

Lemma format_calculator_expands_pattern_witness :
  daily_filename_format_calculator.calc_filename strftime_literal 4
    (lit "logs/application-daily.log") (Utc.gmtime 0)
  = Some (lit "logs/application-daily.log").
Proof.
  destruct (format_calculator_expands_pattern strftime_literal
              (fun format _ => format) strftime_literal_contract 3
              (lit "logs/application-daily.log") (Utc.gmtime 0)) as [H _].
  apply H; by vm_compute.
Defined.

(* ===================================================================== *)
(** ** Further runs in January 2024 *)
(* ===================================================================== *)

Section MoreRuns.
#[local] Existing Instance Utc.platform.

Lemma next_rotation_once_a_day_witness :
  next_rotation 0 0 (Scenario.noon 1 + hours 1)
  = next_rotation 0 0 (Scenario.noon 1).
Proof.
  destruct (next_rotation_once_a_day (zone := utc_fixed_offset) 0 0
              (Scenario.noon 1) (Scenario.noon 1 + hours 1)) as [Hsame _].
  - by vm_compute.
  - by vm_compute.
  - by vm_compute.
  - by vm_compute.
  - apply Hsame. by vm_compute.
Defined.

Lemma sink_it_keeps_all_files_witness :
  let run := sink_it_ Cases.record2 (Cases.unlimited_sink, Cases.day1_world) in
  is_Some (files run.2.2 !! resolve (lit "logs/app_2024-01-01.log")).
Proof.
  intros run.
  destruct (sink_it_keeps_all_files Cases.record2 Cases.unlimited_sink
              run.2.1 Cases.day1_world run.2.2 run.1) as (Hkept & _).
  - reflexivity.
  - by apply run_parts.
  - apply Hkept. vm_compute. by eexists.
Defined.

Lemma failed_open_is_retried_witness :
  exists s' w',
    sink_it_ Cases.record2 (Scenario.sink0, Cases.unopenable_world)
    = (Throw (failed_opening_file (lit "logs/app_2024-01-02.log")), (s', w'))
    /\ rotation_tp_ s' = Scenario.midnight 2.
Proof.
  destruct (failed_open_is_retried Cases.record2 Cases.record2 Scenario.sink0
              Cases.unopenable_world) as (s' & w' & Hrun & _ & _ & Htp & _).
  - by vm_compute.
  - reflexivity.
  - lia.
  - exists s', w'. split; [exact Hrun | exact Htp].
Defined.


Lemma rotation_opens_file_for_the_day_witness :
  let run := sink_it_ Cases.record2 (Scenario.sink1, Cases.day1_world) in
  filename run.2.1 = lit "logs/app_2024-01-02.log".
Proof.
  intros run.
  destruct (rotation_opens_file_for_the_day (zone := utc_fixed_offset)
              Cases.record2 Cases.record2 Scenario.sink1 run.2.1
              Cases.day1_world run.2.2) as [Hname _].
  - by vm_compute.
  - by vm_compute.
  - by vm_compute.
  - apply run_parts. by vm_compute.
  - by vm_compute.
  - exact Hname.
Defined.

Lemma sink_all_keeps_configuration_witness :
  let run := sink_all Scenario.silent_day_msgs
               (Scenario.sink0, Cases.day1_world) in
  max_files_ run.2.1 = 2 /\ length run.1 = 3%nat.
Proof.
  intros run.
  destruct (sink_all_keeps_configuration Scenario.silent_day_msgs
              Scenario.sink0 run.2.1 Cases.day1_world run.2.2 run.1)
    as (_ & _ & _ & _ & Hmax & _ & Hlen).
  - by apply run_parts.
  - by split.
Defined.

Lemma sink_all_appends_in_order_witness :
  let msgs := [mk_log_msg (Scenario.noon 1) (lit "b");
               mk_log_msg (Scenario.noon 1 + hours 1) (lit "c")] in
  let run := sink_all msgs (Scenario.sink0, Cases.day1_world) in
  files run.2.2 !! resolve (lit "logs/app_2024-01-01.log")
  = Some (lit "a;b;c;").
Proof.
  intros msgs run.
  destruct (sink_all_appends_in_order msgs Scenario.sink0 run.2.1
              Cases.day1_world run.2.2 run.1) as (_ & _ & _ & Hfiles).
  - reflexivity.
  - reflexivity.
  - repeat constructor; by vm_compute.
  - by apply run_parts.
  - rewrite Hfiles. by vm_compute.
Defined.

Lemma ctor_opens_file_of_the_day_witness :
  (sink_it_ (mk_log_msg (Scenario.noon 1) (lit "a"))
     (Scenario.sink0, Scenario.constructed.2)).1 = Ret tt.
Proof.
  destruct (ctor_opens_file_of_the_day (zone := utc_fixed_offset)
              Scenario.formatter (lit "logs/app.log") 0 0 false 2
              (Scenario.world_of [] Scenario.silent_day_clock)
              Scenario.constructed.2 Scenario.sink0
              (mk_log_msg (Scenario.noon 1) (lit "a")))
    as (_ & _ & _ & Hrun).
  - apply constructed_sink0.
  - by vm_compute.
  - by vm_compute.
  - reflexivity.
  - by rewrite Hrun.
Defined.

Lemma scan_only_removes_obsolete_entries_witness :
  let run := remove_obsolete_logs_ (Scenario.sink1, Cases.old_logs_world) in
  trace run.2.2
  = [EvIterateDir (lit "logs/"); EvRemove (lit "logs/app_2020-01-01.log")].
Proof.
  intros run.
  destruct (scan_only_removes_obsolete_entries Scenario.sink1 run.2.1
              Cases.old_logs_world run.2.2 run.1) as (_ & Htrace & _).
  - by apply run_parts.
  - rewrite Htrace. by vm_compute.
Defined.

Lemma scan_clears_folder_witness :
  let run := remove_obsolete_logs_ (Scenario.sink1, Cases.old_logs_world) in
  lit "notes.txt" ∈ dir_entries run.2.2 (lit "logs/")
  /\ lit "app_2020-01-01.log" ∉ dir_entries run.2.2 (lit "logs/").
Proof.
  intros run.
  pose proof (scan_clears_folder Scenario.sink1 run.2.1 Cases.old_logs_world
                run.2.2 run.1) as Hscan.
  cbv zeta in Hscan.
  change (obsolete_logs_folder (base_filename_ Scenario.sink1))
    with (lit "logs/") in Hscan.
  split.
  - apply Hscan; [by vm_compute| |done|by apply run_parts|].
    + apply (bool_decide_unpack _). by vm_compute.
    + split; [|by vm_compute].
      apply (bool_decide_unpack _). by vm_compute.
  - intros Hin. apply Hscan in Hin as [_ Hkeep];
      [|by vm_compute| |done|by apply run_parts].
    + by vm_compute in Hkeep.
    + apply (bool_decide_unpack _). by vm_compute.
Defined.


Lemma failed_write_skips_removal_witness :
  let run := sink_it_ Cases.record2
               (Scenario.sink0, Cases.unwritable_world) in
  rotation_tp_ run.2.1 = Scenario.midnight 3
  /\ forall path,
       EvRemove path
       ∉ drop (length (trace Cases.unwritable_world)) (trace run.2.2).
Proof.
  intros run.
  destruct (failed_write_skips_removal Cases.record2 Scenario.sink0 run.2.1
              Cases.unwritable_world run.2.2
              (lit "logs/app_2024-01-02.log")) as (_ & Hnone & _ & Hdue).
  - apply run_parts. by vm_compute.
  - split; [|exact Hnone].
    destruct Hdue as (_ & _ & -> & _); by vm_compute.
Defined.

End MoreRuns.
